(** * Correctness checker of the edge-intelligence benchmark

    A shallow embedding of [scripts/correctness_checkers.py] (the category
    rules and per-category heuristics of [evaluate_row], and the counting loop
    and report of [main]) and of the [correctness_summary.json] writer of
    [scripts/model_runner_baseline.py].

    Python [str] values are modelled by [string]: the character with code [n]
    stands for the code point U+00[n], so the model covers every string over
    U+0000..U+00FF (ASCII and the Latin-1 supplement).  [str.lower],
    [str.strip] and [str.split] are the Unicode operations restricted to that
    range. *)

From Stdlib Require Import Bool Arith NArith Lia List Ascii String Permutation.
Import ListNotations.

Set Warnings "-register-all".

Local Open Scope string_scope.
Local Open Scope bool_scope.

(** ** Python string operations *)

Module Str.

Definition code (c : ascii) : N := N_of_ascii c.

Definition between (lo hi : N) (c : ascii) : bool :=
  (N.leb lo (code c) && N.leb (code c) hi)%bool.

(** [str.isspace] on one character: U+0009..U+000D, U+001C..U+0020,
    U+0085 and U+00A0 are the white-space code points below U+0100. *)
Definition isspace (c : ascii) : bool :=
  between 9 13 c || between 28 32 c || N.eqb (code c) 133 || N.eqb (code c) 160.

(** Upper-case letters below U+0100: A..Z, and U+00C0..U+00DE but U+00D7. *)
Definition isupper (c : ascii) : bool :=
  between 65 90 c || (between 192 222 c && negb (N.eqb (code c) 215)).

Definition lower_char (c : ascii) : ascii :=
  if isupper c then ascii_of_N (code c + 32) else c.

(** [s.lower()] *)
Fixpoint lower (s : string) : string :=
  match s with
  | EmptyString => EmptyString
  | String c s' => String (lower_char c) (lower s')
  end.

(** [s.lstrip()] *)
Fixpoint lstrip (s : string) : string :=
  match s with
  | EmptyString => EmptyString
  | String c s' => if isspace c then lstrip s' else s
  end.

(** [s.rstrip()] *)
Fixpoint rstrip (s : string) : string :=
  match s with
  | EmptyString => EmptyString
  | String c s' =>
      match rstrip s' with
      | EmptyString => if isspace c then EmptyString else String c EmptyString
      | r => String c r
      end
  end.

(** [s.strip()] *)
Definition strip (s : string) : string := rstrip (lstrip s).

(** [s.startswith(pre)] *)
Definition startswith (s pre : string) : bool := prefix pre s.

(** [sub in s] *)
Fixpoint contains (sub s : string) : bool :=
  if prefix sub s then true
  else match s with
       | EmptyString => false
       | String _ s' => contains sub s'
       end.

(** [any(f(c) for c in s)] *)
Fixpoint any_char (f : ascii -> bool) (s : string) : bool :=
  match s with
  | EmptyString => false
  | String c s' => f c || any_char f s'
  end.

(** The word read so far, if any, goes before the words that follow. *)
Definition flush (word : string) (rest : list string) : list string :=
  match word with
  | EmptyString => rest
  | _ => word :: rest
  end.

(** [split_from word s]: the words of [s], [word] being the part of the
    current word already read. *)
Fixpoint split_from (word s : string) : list string :=
  match s with
  | EmptyString => flush word []
  | String c s' =>
      if isspace c then flush word (split_from EmptyString s')
      else split_from (word ++ String c EmptyString) s'
  end.

(** [s.split()] *)
Definition split (s : string) : list string := split_from EmptyString s.

End Str.

(** ** Exceptions *)

Inductive exn : Set :=
| JSONDecodeError
| RecursionError
| KeyError
| ZeroDivisionError
| AttributeError.

Inductive py (A : Type) : Type :=
| Ret (a : A)
| Raise (e : exn).

Arguments Ret {A} a.
Arguments Raise {A} e.

(** A computation returns a value or raises. *)
Definition bind {A B : Type} (m : py A) (k : A -> py B) : py B :=
  match m with
  | Ret a => k a
  | Raise e => Raise e
  end.

(** [try: m except Exception: h] *)
Definition try_except {A : Type} (m : py A) (h : exn -> py A) : py A :=
  match m with
  | Ret a => Ret a
  | Raise e => h e
  end.

Declare Scope py_scope.
Delimit Scope py_scope with py.
Notation "x <- m ;; k" := (bind m (fun x => k))
  (at level 61, m at next level, right associativity) : py_scope.
Notation "' pat <- m ;; k" := (bind m (fun x => match x with pat => k end))
  (at level 61, pat pattern, m at next level, right associativity) : py_scope.

(** ** The JSON decoder behind [json.loads]

    [json.loads(s)] with the default decoder: [JSONDecoder.decode] skips
    leading white space, scans one value, skips white space and insists on
    the end of the text.  The scanner follows [json.scanner] and
    [json.decoder]: [scan_once] dispatches on the next character,
    [parse_array] and [parse_object] read the containers, [scanstring] a
    string literal and [match_number] a number.  Numbers are kept as their
    lexemes; the three constants [NaN], [Infinity] and [-Infinity] are
    accepted, as the library does.  Each nested call spends one unit of
    fuel, and [fuel_for] gives enough of it ([decode_fuel]): the limits of
    the interpreter on the depth of the recursion and on the digits of an
    integer are not modelled. *)

Module Json.
Import Str.
Local Open Scope py_scope.
Local Open Scope char_scope.

Inductive value : Type :=
| VNone
| VBool (b : bool)
| VInt (lexeme : string)
| VFloat (lexeme : string)
| VConst (name : string)
| VStr (s : list N)
| VList (items : list value)
| VDict (pairs : list (list N * value)).

Definition dquote : ascii := ascii_of_N 34.
Definition backslash : ascii := ascii_of_N 92.

(** [WHITESPACE_STR = ' \t\n\r'] *)
Definition is_ws (c : ascii) : bool :=
  N.eqb (code c) 32 || N.eqb (code c) 9 || N.eqb (code c) 10 || N.eqb (code c) 13.

(** [WHITESPACE.match(s, end).end()] *)
Fixpoint skip_ws (s : string) : string :=
  match s with
  | EmptyString => EmptyString
  | String c s' => if is_ws c then skip_ws s' else s
  end.

Definition is_digit (c : ascii) : bool := between 48 57 c.

Fixpoint take_digits (s : string) : string * string :=
  match s with
  | EmptyString => (EmptyString, EmptyString)
  | String c s' =>
      if is_digit c
      then let '(ds, r) := take_digits s' in (String c ds, r)
      else (EmptyString, s)
  end.

Definition hex_val (c : ascii) : option N :=
  if between 48 57 c then Some (code c - 48)%N
  else if between 97 102 c then Some (code c - 87)%N
  else if between 65 70 c then Some (code c - 55)%N
  else None.

Definition hex4 (a b c d : ascii) : option N :=
  match hex_val a, hex_val b, hex_val c, hex_val d with
  | Some x, Some y, Some z, Some w => Some (((x * 16 + y) * 16 + z) * 16 + w)%N
  | _, _, _, _ => None
  end.

(** [BACKSLASH] *)
Definition unescape (c : ascii) : option N :=
  if Ascii.eqb c dquote then Some 34%N
  else if Ascii.eqb c backslash then Some 92%N
  else if Ascii.eqb c "/" then Some 47%N
  else if Ascii.eqb c "b" then Some 8%N
  else if Ascii.eqb c "f" then Some 12%N
  else if Ascii.eqb c "n" then Some 10%N
  else if Ascii.eqb c "r" then Some 13%N
  else if Ascii.eqb c "t" then Some 9%N
  else None.

Definition high_surrogate (u : N) : bool := N.leb 55296 u && N.leb u 56319.
Definition low_surrogate (u : N) : bool := N.leb 56320 u && N.leb u 57343.

Definition join_surrogates (u u2 : N) : N :=
  (65536 + ((u - 55296) * 1024 + (u2 - 56320)))%N.

(** [scanstring(s, end)], [s] starting after the opening quote; [acc] holds
    the decoded characters in reverse.  A control character inside the
    literal is refused ([strict=True]); an escaped high surrogate joins an
    escaped low surrogate that follows it. *)
Fixpoint scanstring (s : string) (acc : list N) : py (list N * string) :=
  match s with
  | EmptyString => Raise JSONDecodeError
  | String c s' =>
      if Ascii.eqb c dquote then Ret (rev acc, s')
      else if Ascii.eqb c backslash then
        match s' with
        | EmptyString => Raise JSONDecodeError
        | String esc s'' =>
            if Ascii.eqb esc "u" then
              match s'' with
              | String h1 (String h2 (String h3 (String h4 rest))) =>
                  match hex4 h1 h2 h3 h4 with
                  | Some u =>
                      match rest with
                      | String e0 (String e1 (String a (String b
                          (String c0 (String d rest'))))) =>
                          if high_surrogate u && Ascii.eqb e0 backslash
                             && Ascii.eqb e1 "u"
                          then
                            match hex4 a b c0 d with
                            | Some u2 =>
                                if low_surrogate u2
                                then scanstring rest' (join_surrogates u u2 :: acc)
                                else scanstring rest (u :: acc)
                            | None => Raise JSONDecodeError
                            end
                          else scanstring rest (u :: acc)
                      | _ => scanstring rest (u :: acc)
                      end
                  | None => Raise JSONDecodeError
                  end
              | _ => Raise JSONDecodeError
              end
            else
              match unescape esc with
              | Some ch => scanstring s'' (ch :: acc)
              | None => Raise JSONDecodeError
              end
        end
      else if N.leb (code c) 31 then Raise JSONDecodeError
      else scanstring s' (code c :: acc)
  end.

(** [NUMBER_RE.match(s, idx)]: an optional minus sign and either 0 or a
    digit 1-9 with any digits after it; then, optionally, a dot with at
    least one digit; then, optionally, e or E, an optional sign and at
    least one digit. *)
Definition match_integer (s : string) : option (string * string) :=
  let '(sign, s1) :=
    match s with
    | String c s' => if Ascii.eqb c "-" then ("-"%string, s') else (EmptyString, s)
    | EmptyString => (EmptyString, s)
    end in
  match s1 with
  | String c s2 =>
      if Ascii.eqb c "0" then Some (sign ++ "0", s2)%string
      else if between 49 57 c then
        let '(ds, r) := take_digits s2 in Some (sign ++ String c ds, r)%string
      else None
  | EmptyString => None
  end.

Definition match_frac (s : string) : string * string :=
  match s with
  | String c s' =>
      if Ascii.eqb c "." then
        match take_digits s' with
        | (EmptyString, _) => (EmptyString, s)
        | (ds, r) => (String c ds, r)
        end
      else (EmptyString, s)
  | EmptyString => (EmptyString, s)
  end.

Definition match_exp (s : string) : string * string :=
  match s with
  | String e s' =>
      if Ascii.eqb e "e" || Ascii.eqb e "E" then
        let '(sign, s1) :=
          match s' with
          | String c s'' =>
              if Ascii.eqb c "-" || Ascii.eqb c "+"
              then (String c EmptyString, s'')
              else (EmptyString, s')
          | EmptyString => (EmptyString, s')
          end in
        match take_digits s1 with
        | (EmptyString, _) => (EmptyString, s)
        | (ds, r) => (String e (sign ++ ds), r)
        end
      else (EmptyString, s)
  | EmptyString => (EmptyString, s)
  end.

Definition match_number (s : string) : option (value * string) :=
  match match_integer s with
  | None => None
  | Some (integer, r1) =>
      let '(frac, r2) := match_frac r1 in
      let '(exp, r3) := match_exp r2 in
      match frac, exp with
      | EmptyString, EmptyString => Some (VInt integer, r3)
      | _, _ => Some (VFloat (integer ++ frac ++ exp), r3)
      end
  end.

(** [s[idx:idx + len(lit)] == lit], giving the text after the literal. *)
Fixpoint literal (lit s : string) : option string :=
  match lit, s with
  | EmptyString, _ => Some s
  | String a lit', String b s' => if Ascii.eqb a b then literal lit' s' else None
  | String _ _, EmptyString => None
  end.

Section Scanner.

(** The [parse_constant] hook of the decoder, called with the name of the
    constant read. *)
Variable parse_constant : string -> py value.

Definition constant (name rest : string) : py (value * string) :=
  v <- parse_constant name ;; Ret (v, rest).

(** The cases of [_scan_once] that read no container. *)
Definition scan_atom (s : string) : py (value * string) :=
  match literal "null" s, literal "true" s, literal "false" s with
  | Some r, _, _ => Ret (VNone, r)
  | None, Some r, _ => Ret (VBool true, r)
  | None, None, Some r => Ret (VBool false, r)
  | None, None, None =>
      match match_number s with
      | Some vr => Ret vr
      | None =>
          match literal "NaN" s, literal "Infinity" s, literal "-Infinity" s with
          | Some r, _, _ => constant "NaN" r
          | None, Some r, _ => constant "Infinity" r
          | None, None, Some r => constant "-Infinity" r
          | None, None, None => Raise JSONDecodeError
          end
      end
  end.

(** [_scan_once], with [JSONArray] and [JSONObject] as its loops:
    [parse_array] starts at an element, [parse_object] after the opening
    quote of a key. *)
Fixpoint scan_once (fuel : nat) (s : string) : py (value * string) :=
  match fuel with
  | O => Raise RecursionError
  | S fuel' =>
      match s with
      | EmptyString => Raise JSONDecodeError
      | String c s' =>
          if Ascii.eqb c dquote then
            '(str, r) <- scanstring s' [] ;; Ret (VStr str, r)
          else if Ascii.eqb c "{" then
            match skip_ws s' with
            | String c1 r =>
                if Ascii.eqb c1 "}" then Ret (VDict [], r)
                else if Ascii.eqb c1 dquote then parse_object fuel' r []
                else Raise JSONDecodeError
            | EmptyString => Raise JSONDecodeError
            end
          else if Ascii.eqb c "[" then
            match skip_ws s' with
            | String c1 r =>
                if Ascii.eqb c1 "]" then Ret (VList [], r)
                else parse_array fuel' (String c1 r) []
            | EmptyString => Raise JSONDecodeError
            end
          else scan_atom s
      end
  end

with parse_array (fuel : nat) (s : string) (acc : list value)
  : py (value * string) :=
  match fuel with
  | O => Raise RecursionError
  | S fuel' =>
      '(v, r) <- scan_once fuel' s ;;
      match skip_ws r with
      | String c r' =>
          if Ascii.eqb c "]" then Ret (VList (rev (v :: acc)), r')
          else if Ascii.eqb c "," then parse_array fuel' (skip_ws r') (v :: acc)
          else Raise JSONDecodeError
      | EmptyString => Raise JSONDecodeError
      end
  end

with parse_object (fuel : nat) (s : string) (acc : list (list N * value))
  : py (value * string) :=
  match fuel with
  | O => Raise RecursionError
  | S fuel' =>
      '(key, r) <- scanstring s [] ;;
      match skip_ws r with
      | String c r1 =>
          if Ascii.eqb c ":" then
            '(v, r2) <- scan_once fuel' (skip_ws r1) ;;
            match skip_ws r2 with
            | String c2 r3 =>
                if Ascii.eqb c2 "}" then Ret (VDict (rev ((key, v) :: acc)), r3)
                else if Ascii.eqb c2 "," then
                  match skip_ws r3 with
                  | String c3 r4 =>
                      if Ascii.eqb c3 dquote
                      then parse_object fuel' r4 ((key, v) :: acc)
                      else Raise JSONDecodeError
                  | EmptyString => Raise JSONDecodeError
                  end
                else Raise JSONDecodeError
            | EmptyString => Raise JSONDecodeError
            end
          else Raise JSONDecodeError
      | EmptyString => Raise JSONDecodeError
      end
  end.

(** Fuel enough for every text of this length. *)
Definition fuel_for (s : string) : nat := 2 * String.length s + 2.

(** [JSONDecoder(parse_constant=...).decode(s)] *)
Definition decode (s : string) : py value :=
  '(obj, r) <- scan_once (fuel_for s) (skip_ws s) ;;
  match skip_ws r with
  | EmptyString => Ret obj
  | String _ _ => Raise JSONDecodeError
  end.

End Scanner.

(** The default hook: the constant becomes a float. *)
Definition default_constant (name : string) : py value := Ret (VConst name).

(** [json.loads(s)] *)
Definition loads (s : string) : py value := decode default_constant s.

(** A strict JSON parse, as RFC 8259 has the grammar: white space, strings,
    numbers, [true], [false], [null], arrays and objects are the ones
    above, and [NaN], [Infinity] and [-Infinity] are no values. *)
Definition no_constant (name : string) : py value := Raise JSONDecodeError.

Definition strict_loads (s : string) : py value := decode no_constant s.

End Json.

(** ** [correctness_checkers.py]: one prompt-output pair *)

(** The dictionary [evaluate_row] returns. *)
Record EvalResult : Type := mkResult {
  category : string;
  correct : bool;
  output_len : nat
}.

Section Checker.
Import Str.
Local Open Scope py_scope.

(** [json.loads], the one library call of the checker that can raise. *)
Variable json_loads : string -> py Json.value.

(** [v is not None] *)
Definition is_not_None (v : Json.value) : bool :=
  match v with
  | Json.VNone => false
  | _ => true
  end.

Definition safe_json_load (s : string) : py Json.value :=
  try_except (json_loads s) (fun _ => Ret Json.VNone).

Definition looks_like_json (text : string) : bool :=
  let text := strip text in
  startswith text "{" || startswith text "[".

(** The character class of [re.search(r"[0-9+\-*/=]", text)]. *)
Definition math_char (c : ascii) : bool :=
  between 48 57 c
  || Ascii.eqb c "+" || Ascii.eqb c "-" || Ascii.eqb c "*"
  || Ascii.eqb c "/" || Ascii.eqb c "=".

Definition is_math_expression (text : string) : bool :=
  any_char math_char text.

(** [evaluate_row(prompt, output)]: the [if]/[elif] chain gives the category
    and the verdict, [correctness] keeping its initial [False] where the
    json branch does not assign it. *)
Definition evaluate_row (prompt output : string) : py EvalResult :=
  let correctness := false in
  let p_lower := lower prompt in
  let out_lower := strip (lower output) in
  '(category, correctness) <-
    (if contains "derivative" p_lower || contains "integral" p_lower
        || contains "solve" p_lower
     then
       Ret ("math",
            existsb (fun sym => contains sym out_lower)
                    ["x"; "y"; "="; "dx"; "dy"; "6x"; "2x"]
            || is_math_expression out_lower)
     else if contains "python" p_lower || contains "code" p_lower
             || contains "function" p_lower
     then
       Ret ("code",
            existsb (fun k => contains k out_lower)
                    ["def "; "return"; "for "; "while "])
     else if contains "json" p_lower || contains "object" p_lower
             || contains "key" p_lower
     then
       if looks_like_json output
       then v <- safe_json_load output ;; Ret ("json", is_not_None v)
       else Ret ("json", correctness)
     else if contains "story" p_lower || contains "write" p_lower
             || contains "poem" p_lower
     then
       Ret ("writing",
            Nat.ltb 10 (List.length (split out_lower))
            && contains "." out_lower)
     else
       Ret ("general",
            Nat.ltb 5 (String.length out_lower)
            && existsb (fun w => contains w out_lower)
                       (firstn 3 (split p_lower)))) ;;
  Ret {| category := category;
         correct := correctness;
         output_len := List.length (split out_lower) |}.

End Checker.

(** ** Dictionaries

    A Python [dict] keeps its keys in the order of their first insertion, and
    the report is written in that order: a dictionary is a list of pairs.
    [d[k]] raises [KeyError] on a key that is absent. *)

Module Dict.
Section Ops.
Context {V : Type}.

Definition t : Type := list (string * V).

(** [d.get(k)] *)
Fixpoint get (k : string) (d : t) : option V :=
  match d with
  | [] => None
  | (k', v) :: d' => if String.eqb k k' then Some v else get k d'
  end.

(** [d[k]] *)
Definition getitem (k : string) (d : t) : py V :=
  match get k d with
  | Some v => Ret v
  | None => Raise KeyError
  end.

(** [d[k] = v] *)
Fixpoint setitem (k : string) (v : V) (d : t) : t :=
  match d with
  | [] => [(k, v)]
  | (k', v') :: d' =>
      if String.eqb k k' then (k', v) :: d' else (k', v') :: setitem k v d'
  end.

(** [d.setdefault(k, v)], for its effect on [d] *)
Fixpoint setdefault (k : string) (v : V) (d : t) : t :=
  match d with
  | [] => [(k, v)]
  | (k', v') :: d' =>
      if String.eqb k k' then d else (k', v') :: setdefault k v d'
  end.

Definition keys (d : t) : list string := map fst d.
Definition values (d : t) : list V := map snd d.
End Ops.
Arguments t : clear implicits.
End Dict.

(** ** [correctness_checkers.py]: the counting loop of [main] *)

Module Stats.
(** [{"total": ..., "correct": ...}] *)
Record t : Type := mk { total : nat; correct : nat }.
End Stats.

Section Counting.
Local Open Scope py_scope.

(** Lines 115-119 of [main], the same statements as lines 163-168 of
    [model_runner_baseline.py]: the entry of the result's category is
    created on its first occurrence and counted. *)
Definition count_category (category_stats : Dict.t Stats.t) (res : EvalResult)
  : py (Dict.t Stats.t) :=
  let cat := category res in
  let category_stats :=
    Dict.setdefault cat (Stats.mk 0 0) category_stats in
  s <- Dict.getitem cat category_stats ;;
  let category_stats :=
    Dict.setitem cat (Stats.mk (Stats.total s + 1) (Stats.correct s))
                 category_stats in
  if correct res then
    s <- Dict.getitem cat category_stats ;;
    Ret (Dict.setitem cat (Stats.mk (Stats.total s) (Stats.correct s + 1))
                      category_stats)
  else Ret category_stats.

(** The counters of a run: [total], [correct] and [category_stats]. *)
Record Counters : Type := mkCounters {
  run_total : nat;
  run_correct : nat;
  run_stats : Dict.t Stats.t
}.

(** One turn of the loop of [main], the row already evaluated. *)
Definition tally (st : Counters) (res : EvalResult) : py Counters :=
  let correct_ := if correct res then run_correct st + 1 else run_correct st in
  stats <- count_category (run_stats st) res ;;
  Ret (mkCounters (run_total st) correct_ stats).

(** The loop over results already evaluated. *)
Fixpoint tally_all (st : Counters) (results : list EvalResult) : py Counters :=
  match results with
  | [] => Ret st
  | res :: results' => st' <- tally st res ;; tally_all st' results'
  end.

(** The aggregation of a sequence of evaluation results:
    [total = len(rows)], [correct = 0], [category_stats = {}] and the loop. *)
Definition accumulate (results : list EvalResult) : py Counters :=
  tally_all (mkCounters (List.length results) 0 []) results.

End Counting.

(** ** Reports *)

(** A floating-point number is kept as the expression that computes it. *)
Inductive pyfloat : Type :=
| FDiv (a b : nat)                      (* [a / b] on integers, [b] not 0 *)
| FMul (x : pyfloat) (k : nat)          (* [x * k] *)
| FRound (x : pyfloat) (ndigits : nat). (* [round(x, ndigits)] *)

(** The values a report is made of. *)
Inductive pyobj : Type :=
| PStr (s : string)
| PInt (n : nat)
| PFloat (f : pyfloat)
| PDict (items : list (string * pyobj)).

(** A row of the CSV file: its [prompt] and [output] cells. *)
Record Row : Type := mkRow { prompt : string; output : string }.

Section Reports.
Import Str.
Local Open Scope py_scope.

Variable json_loads : string -> py Json.value.

(** [a / b] *)
Definition truediv (a b : nat) : py pyfloat :=
  if Nat.eqb b 0 then Raise ZeroDivisionError else Ret (FDiv a b).

(** [round((a / b) * 100, 2)] *)
Definition percent (a b : nat) : py pyfloat :=
  x <- truediv a b ;; Ret (FRound (FMul x 100) 2).

Fixpoint basename_from (name path : string) : string :=
  match path with
  | EmptyString => name
  | String c path' =>
      if Ascii.eqb c "/" then basename_from EmptyString path'
      else basename_from (name ++ String c EmptyString) path'
  end.

(** [os.path.basename(path)] *)
Definition basename (path : string) : string := basename_from EmptyString path.

(** The loop of [main], lines 109-119. *)
Fixpoint main_loop (st : Counters) (rows : list Row) : py Counters :=
  match rows with
  | [] => Ret st
  | r :: rows' =>
      res <- evaluate_row json_loads (prompt r) (output r) ;;
      st' <- tally st res ;;
      main_loop st' rows'
  end.

(** Lines 131-137 of [main]. *)
Fixpoint per_category (stats : Dict.t Stats.t) : py (list (string * pyobj)) :=
  match stats with
  | [] => Ret []
  | (cat, s) :: stats' =>
      acc <- (if Nat.eqb (Stats.total s) 0 then Ret (PInt 0)
              else f <- percent (Stats.correct s) (Stats.total s) ;; Ret (PFloat f)) ;;
      rest <- per_category stats' ;;
      Ret ((cat, PDict [("accuracy_percent", acc);
                        ("correct", PInt (Stats.correct s));
                        ("total", PInt (Stats.total s))]) :: rest)
  end.

(** [main] from the rows of the CSV file to the [summary] it dumps into
    [correctness_summary.json]; [None] when the file has no row and [main]
    leaves before it counts anything. *)
Definition main (csv_path : string) (rows : list Row) : py (option pyobj) :=
  match rows with
  | [] => Ret None
  | _ :: _ =>
      st <- main_loop (mkCounters (List.length rows) 0 []) rows ;;
      overall_acc <- percent (run_correct st) (run_total st) ;;
      cats <- per_category (run_stats st) ;;
      Ret (Some (PDict [("file", PStr (basename csv_path));
                        ("total", PInt (run_total st));
                        ("correct", PInt (run_correct st));
                        ("accuracy_percent", PFloat overall_acc);
                        ("per_category", PDict cats)]))
  end.

(** *** [model_runner_baseline.py], lines 153-183 *)

(** Lines 158-168. *)
Fixpoint runner_loop (cats : Dict.t Stats.t) (rows : list Row)
  : py (Dict.t Stats.t) :=
  match rows with
  | [] => Ret cats
  | r :: rows' =>
      res <- evaluate_row json_loads (prompt r) (output r) ;;
      cats' <- count_category cats res ;;
      runner_loop cats' rows'
  end.

(** The comprehension of lines 172-179. *)
Fixpoint runner_per_category (cats : Dict.t Stats.t)
  : py (list (string * pyobj)) :=
  match cats with
  | [] => Ret []
  | (k, v) :: cats' =>
      f <- percent (Stats.correct v) (Stats.total v) ;;
      rest <- runner_per_category cats' ;;
      Ret ((k, PDict [("accuracy_percent", PFloat f);
                      ("correct", PInt (Stats.correct v));
                      ("total", PInt (Stats.total v))]) :: rest)
  end.

(** [cat_summary], the object the runner dumps into
    [correctness_summary.json]; [accuracy_percent] is
    [summary["accuracy_percent"]] and [rows] the rows of [outputs.csv]. *)
Definition cat_summary (accuracy_percent : pyfloat) (rows : list Row)
  : py pyobj :=
  cats <- runner_loop [] rows ;;
  per <- runner_per_category cats ;;
  Ret (PDict [("overall_accuracy", PFloat accuracy_percent);
              ("per_category", PDict per)]).

End Reports.

(** ** Vocabulary of the specification *)

Section Vocabulary.
Import Str.

(** [sub] occurs in [s] as a run of consecutive characters. *)
Definition Substring (sub s : string) : Prop :=
  exists a b, s = (a ++ sub ++ b)%string.

(** Some character of [s] satisfies [P]. *)
Definition HasChar (P : ascii -> Prop) (s : string) : Prop :=
  exists a c b, s = (a ++ String c b)%string /\ P c.

(** [s] starts with the character [c]. *)
Definition StartsWith (c : ascii) (s : string) : Prop :=
  exists rest, s = String c rest.

(** The class [[0-9+\-*/=]]. *)
Definition MathChar (c : ascii) : Prop :=
  (48 <= code c <= 57)%N \/ In c ["+"; "-"; "*"; "/"; "="]%char.

(** [out_lower] of [evaluate_row]: the output lower-cased, then trimmed. *)
Definition out_lower (output : string) : string := strip (lower output).

(** The ordered keyword rules of the categorizer. *)
Definition rules : list (list string * string) :=
  [ (["derivative"; "integral"; "solve"], "math");
    (["python"; "code"; "function"], "code");
    (["json"; "object"; "key"], "json");
    (["story"; "write"; "poem"], "writing") ].

(** First match wins; [general] when no rule matches. *)
Fixpoint first_match (rs : list (list string * string)) (p_lower : string)
  : string :=
  match rs with
  | [] => "general"
  | (keywords, label) :: rs' =>
      if existsb (fun k => contains k p_lower) keywords then label
      else first_match rs' p_lower
  end.

(** A rule matches when one of its keywords occurs in the prompt. *)
Definition Matches (keywords : list string) (p_lower : string) : Prop :=
  exists k, In k keywords /\ Substring k p_lower.

(** [classify(prompt)] as the specification words it. *)
Definition classify_spec (prompt : string) : string :=
  first_match rules (lower prompt).

(** The output has a word that is one of the first three words of the
    prompt. *)
Definition SharesToken (prompt output : string) : Prop :=
  exists w, In w (firstn 3 (split (lower prompt)))
            /\ In w (split (out_lower output)).

(** The five categories. *)
Definition labels : list string :=
  ["math"; "code"; "json"; "writing"; "general"].

End Vocabulary.

Section Tallies.

(** The sums over the categories of a dictionary of counts. *)
Definition sum_total (d : Dict.t Stats.t) : nat :=
  list_sum (map Stats.total (Dict.values d)).

Definition sum_correct (d : Dict.t Stats.t) : nat :=
  list_sum (map Stats.correct (Dict.values d)).

(** How many results are correct, are of category [c], are both. *)
Definition count_correct (results : list EvalResult) : nat :=
  List.length (filter correct results).

Definition occ (c : string) (results : list EvalResult) : nat :=
  List.length (filter (fun r => String.eqb c (category r)) results).

Definition occ_correct (c : string) (results : list EvalResult) : nat :=
  List.length (filter (fun r => String.eqb c (category r) && correct r) results).

(** One more result, [b] its verdict, for one category. *)
Definition bump (b : bool) (s : Stats.t) : Stats.t :=
  if b then Stats.mk (Stats.total s + 1) (Stats.correct s + 1)
  else Stats.mk (Stats.total s + 1) (Stats.correct s).

(** What [count_category] makes of the dictionary, in one pass. *)
Fixpoint bump_entry (cat : string) (b : bool) (d : Dict.t Stats.t)
  : Dict.t Stats.t :=
  match d with
  | [] => [(cat, bump b (Stats.mk 0 0))]
  | (k, s) :: d' =>
      if String.eqb cat k then (k, bump b s) :: d'
      else (k, s) :: bump_entry cat b d'
  end.

(** The dictionary after the results are counted, in their order. *)
Definition bump_all (d : Dict.t Stats.t) (results : list EvalResult)
  : Dict.t Stats.t :=
  fold_left (fun d r => bump_entry (category r) (correct r) d) results d.

(** The counts of an entry that may be absent. *)
Definition counts_of (o : option Stats.t) : Stats.t :=
  match o with
  | Some s => s
  | None => Stats.mk 0 0
  end.

(** The entry of category [c] once [n] results of the category, [m] of
    them correct, are added to the entry [o]. *)
Definition entry_after (o : option Stats.t) (n m : nat) : option Stats.t :=
  match o with
  | Some s => Some (Stats.mk (Stats.total s + n) (Stats.correct s + m))
  | None => if Nat.eqb n 0 then None else Some (Stats.mk n m)
  end.

(** The entry of a category in the report of [main]. *)
Definition category_report (s : Stats.t) : pyobj :=
  PDict [("accuracy_percent",
          PFloat (FRound (FMul (FDiv (Stats.correct s) (Stats.total s)) 100) 2));
         ("correct", PInt (Stats.correct s));
         ("total", PInt (Stats.total s))].

(** The [per_category] object of a report, from the counts. *)
Definition per_category_report (stats : Dict.t Stats.t)
  : list (string * pyobj) :=
  map (fun kv => (fst kv, category_report (snd kv))) stats.

(** Every category of the dictionary has been counted at least once. *)
Definition all_counted (stats : Dict.t Stats.t) : Prop :=
  Forall (fun kv => 1 <= Stats.total (snd kv)) stats.

(** The keys of a report, in the order they are written. *)
Definition fields (o : pyobj) : list string :=
  match o with
  | PDict items => map fst items
  | _ => []
  end.

End Tallies.

(** ** Paths

    [os.path] on a POSIX system: [posixpath.dirname] and [posixpath.join]
    (of two components), beside [basename] above. *)

Module Path.

(** [p[:p.rfind('/') + 1]]: the path up to its last separator, included. *)
Fixpoint head (p : string) : string :=
  match p with
  | EmptyString => EmptyString
  | String c p' =>
      match head p' with
      | EmptyString => if Ascii.eqb c "/" then String c EmptyString else EmptyString
      | h => String c h
      end
  end.

(** [p.rstrip('/')] *)
Fixpoint rstrip_sep (p : string) : string :=
  match p with
  | EmptyString => EmptyString
  | String c p' =>
      match rstrip_sep p' with
      | EmptyString => if Ascii.eqb c "/" then EmptyString else String c EmptyString
      | r => String c r
      end
  end.

(** [p == '/' * len(p)] *)
Fixpoint all_sep (p : string) : bool :=
  match p with
  | EmptyString => true
  | String c p' => Ascii.eqb c "/" && all_sep p'
  end.

(** [os.path.dirname(p)] *)
Definition dirname (p : string) : string :=
  let h := head p in
  match h with
  | EmptyString => h
  | String _ _ => if all_sep h then h else rstrip_sep h
  end.

(** [p.endswith('/')] *)
Fixpoint endswith_sep (p : string) : bool :=
  match p with
  | EmptyString => false
  | String c EmptyString => Ascii.eqb c "/"
  | String _ p' => endswith_sep p'
  end.

(** [os.path.join(a, b)] *)
Definition join (a b : string) : string :=
  if Str.startswith b "/" then b
  else match a with
       | EmptyString => b
       | String _ _ => if endswith_sep a then a ++ b else a ++ "/" ++ b
       end.

End Path.

Section Places.
Local Open Scope py_scope.

Variable json_loads : string -> py Json.value.

(** [out_path], line 140 of [correctness_checkers.py]. *)
Definition out_path (csv_path : string) : string :=
  Path.join (Path.dirname csv_path) "correctness_summary.json".

(** [s.replace(old, new)] for a non-empty [old]: the occurrences are taken
    from the left and do not overlap; [skip] characters of an occurrence
    just replaced are still to be passed. *)
Fixpoint replace_from (skip : nat) (old new s : string) : string :=
  match s with
  | EmptyString => EmptyString
  | String c s' =>
      match skip with
      | S k => replace_from k old new s'
      | O =>
          if prefix old s
          then new ++ replace_from (String.length old - 1) old new s'
          else String c (replace_from 0 old new s')
      end
  end.

Definition replace (old new s : string) : string := replace_from 0 old new s.

(** [run_name], lines 43-49 of [model_runner_baseline.py]; [stamp] is what
    [time.strftime("%Y%m%d_%H%M%S")] returns. *)
Definition run_name (model prompts stamp : string) : string :=
  replace "/" "_" model ++ "_run_"
  ++ replace ".json" "" (basename prompts) ++ "_" ++ stamp.

(** [run_dir], line 51. *)
Definition run_dir (results_root model prompts stamp : string) : string :=
  Path.join results_root (run_name model prompts stamp).

(** [outputs_csv_path] and [correctness_summary_path], lines 56 and 58. *)
Definition outputs_csv_path (run_dir : string) : string :=
  Path.join run_dir "outputs.csv".

Definition correctness_summary_path (run_dir : string) : string :=
  Path.join run_dir "correctness_summary.json".




End Places.

(** ** Rows with missing cells

    [csv.DictReader] gives [None] for the cell that a row shorter than the
    header lacks, and [r.get(key, "")] returns it; for a column that the
    header lacks [r.get] gives the empty string.  A cell is what [r.get]
    returns. *)

Record CsvRow : Type := mkCsvRow {
  prompt_cell : option string;
  output_cell : option string
}.

(** The row whose cells are the strings of [r]. *)
Definition cells_of (r : Row) : CsvRow :=
  mkCsvRow (Some (prompt r)) (Some (output r)).

(** Both cells are strings. *)
Definition is_complete (r : CsvRow) : bool :=
  match prompt_cell r, output_cell r with
  | Some _, Some _ => true
  | _, _ => false
  end.

Section CsvRows.
Local Open Scope py_scope.

Variable json_loads : string -> py Json.value.

(** [evaluate_row(prompt, output)] on cells: [prompt.lower()] (line 48) and
    [output.lower()] (line 49) raise [AttributeError] on [None]. *)
Definition evaluate_cells (r : CsvRow) : py EvalResult :=
  match prompt_cell r with
  | None => Raise AttributeError
  | Some prompt =>
      match output_cell r with
      | None => Raise AttributeError
      | Some output => evaluate_row json_loads prompt output
      end
  end.

(** The loop of [main], lines 109-119, on the rows as they are read. *)
Fixpoint main_csv_loop (st : Counters) (rows : list CsvRow) : py Counters :=
  match rows with
  | [] => Ret st
  | r :: rows' =>
      res <- evaluate_cells r ;;
      st' <- tally st res ;;
      main_csv_loop st' rows'
  end.

(** [main] on the rows as they are read, lines 101-137. *)
Definition main_csv (csv_path : string) (rows : list CsvRow)
  : py (option pyobj) :=
  match rows with
  | [] => Ret None
  | _ :: _ =>
      st <- main_csv_loop (mkCounters (List.length rows) 0 []) rows ;;
      overall_acc <- percent (run_correct st) (run_total st) ;;
      cats <- per_category (run_stats st) ;;
      Ret (Some (PDict [("file", PStr (basename csv_path));
                        ("total", PInt (run_total st));
                        ("correct", PInt (run_correct st));
                        ("accuracy_percent", PFloat overall_acc);
                        ("per_category", PDict cats)]))
  end.

End CsvRows.

Section MoreVocabulary.
Import Str.

(** A [list] or a [dict]. *)
Definition is_container (v : Json.value) : bool :=
  match v with
  | Json.VList _ | Json.VDict _ => true
  | _ => false
  end.

(** The elements of a list in the order of their first occurrence. *)
Fixpoint first_seen (l : list string) : list string :=
  match l with
  | [] => []
  | c :: l' => c :: filter (fun x => negb (String.eqb c x)) (first_seen l')
  end.

(** The characters that make a math answer correct. *)
Definition MathAnswerChar (c : ascii) : Prop :=
  c = "x"%char \/ c = "y"%char \/ MathChar c.

(** [o[name]] of a report, when it has the field. *)
Definition field (name : string) (o : pyobj) : option pyobj :=
  match o with
  | PDict items => Dict.get name items
  | _ => None
  end.

(** The rows and the results [evaluate_row] returns for them. *)
Definition Evaluated (json_loads : string -> py Json.value)
           (rows : list Row) (results : list EvalResult) : Prop :=
  Forall2 (fun row res =>
             evaluate_row json_loads (prompt row) (output row) = Ret res)
          rows results.

(** [s] has no path separator: ["/" in s] is false. *)
Definition NoSep (s : string) : Prop := Str.contains "/" s = false.

(** The four marks of a code answer. *)
Definition code_marks : list string := ["def "; "return"; "for "; "while "].

End MoreVocabulary.

(** * Properties *)

(** ** Strings *)

Section StringFacts.
Import Str.

Lemma prefix_app (p s : string) :
  prefix p s = true <-> exists b, s = (p ++ b)%string.
Proof.
  revert s; induction p as [|a p IH]; intros s; simpl.
  - destruct s; split; eauto.
  - destruct s as [|b s]; simpl.
    + split; [discriminate | intros [x Hx]; discriminate].
    + destruct (ascii_dec a b) as [->|Hab].
      * rewrite IH. split; intros [x Hx]; exists x; congruence.
      * split; [discriminate | intros [x Hx]; congruence].
Qed.

Lemma contains_Substring (sub s : string) :
  contains sub s = true <-> Substring sub s.
Proof.
  unfold Substring. induction s as [|c s IH]; cbn [contains].
  - destruct (prefix sub "") eqn:E.
    + split; [intros _ | reflexivity].
      apply prefix_app in E as [b Hb]. exists ""%string, b. exact Hb.
    + split; [discriminate |].
      intros [a [b H]]. destruct a; simpl in H; [|discriminate].
      assert (prefix sub "" = true) by (apply prefix_app; eauto).
      congruence.
  - destruct (prefix sub (String c s)) eqn:E.
    + split; [intros _ | reflexivity].
      apply prefix_app in E as [b Hb]. exists ""%string, b. exact Hb.
    + rewrite IH. split.
      * intros [a [b H]]. exists (String c a), b. simpl. now rewrite H.
      * intros [a [b H]]. destruct a as [|c' a]; simpl in H.
        -- assert (prefix sub (String c s) = true) by (apply prefix_app; eauto).
           congruence.
        -- injection H as _ H. eauto.
Qed.

Lemma any_char_HasChar (f : ascii -> bool) (s : string) :
  any_char f s = true <-> HasChar (fun c => f c = true) s.
Proof.
  unfold HasChar. induction s as [|c s IH]; simpl.
  - split; [discriminate |].
    intros [a [c [b [H _]]]]. destruct a; discriminate.
  - rewrite orb_true_iff, IH. split.
    + intros [H | [a [c' [b [H1 H2]]]]].
      * exists ""%string, c, s. auto.
      * exists (String c a), c', b. simpl. split; congruence.
    + intros [a [c' [b [H1 H2]]]]. destruct a as [|x a]; simpl in H1.
      * injection H1 as -> _. auto.
      * injection H1 as _ H1. right. eauto.
Qed.

Lemma HasChar_iff (P Q : ascii -> Prop) (s : string) :
  (forall c, P c <-> Q c) -> HasChar P s <-> HasChar Q s.
Proof.
  intros H; unfold HasChar; split; intros [a [c [b [E Hc]]]];
    exists a, c, b; split; auto; now apply H.
Qed.

Lemma contains_char (c : ascii) (s : string) :
  contains (String c "") s = any_char (Ascii.eqb c) s.
Proof.
  induction s as [|d s IH]; cbn [contains any_char prefix]; [reflexivity|].
  destruct (ascii_dec c d) as [->|Hcd].
  - rewrite Ascii.eqb_refl. now destruct s.
  - apply Ascii.eqb_neq in Hcd. now rewrite Hcd, IH.
Qed.

Lemma rstrip_cons (c : ascii) (s : string) :
  isspace c = false -> rstrip (String c s) = String c (rstrip s).
Proof. intros H; cbn [rstrip]; rewrite H; now destruct (rstrip s). Qed.

Lemma lstrip_head (s : string) :
  lstrip s = ""%string
  \/ exists c r, lstrip s = String c r /\ isspace c = false.
Proof.
  induction s as [|c s IH]; cbn [lstrip]; [now left|].
  destruct (isspace c) eqn:E; [exact IH | right; eauto].
Qed.

Lemma strip_StartsWith (c : ascii) (s : string) :
  StartsWith c (strip s) <-> StartsWith c (lstrip s).
Proof.
  unfold strip, StartsWith.
  destruct (lstrip_head s) as [-> | [d [r [-> Hd]]]].
  - split; intros [x Hx]; discriminate.
  - rewrite (rstrip_cons _ _ Hd).
    split; intros [x Hx]; injection Hx as -> _; eauto.
Qed.

Lemma any_char_lstrip (f : ascii -> bool) (s : string) :
  (forall c, f c = true -> isspace c = false) ->
  any_char f (lstrip s) = any_char f s.
Proof.
  intros Hf; induction s as [|c s IH]; cbn [lstrip any_char]; [reflexivity|].
  destruct (isspace c) eqn:E; [|reflexivity].
  destruct (f c) eqn:Efc; [apply Hf in Efc; congruence | exact IH].
Qed.

Lemma any_char_rstrip (f : ascii -> bool) (s : string) :
  (forall c, f c = true -> isspace c = false) ->
  any_char f (rstrip s) = any_char f s.
Proof.
  intros Hf; induction s as [|c s IH]; [reflexivity|].
  cbn [rstrip any_char]. rewrite <- IH.
  destruct (rstrip s) eqn:Er; [|reflexivity].
  destruct (isspace c) eqn:E; cbn [any_char]; [|reflexivity].
  destruct (f c) eqn:Efc; [apply Hf in Efc; congruence | reflexivity].
Qed.

Lemma any_char_strip (f : ascii -> bool) (s : string) :
  (forall c, f c = true -> isspace c = false) ->
  any_char f (strip s) = any_char f s.
Proof.
  intros Hf; unfold strip.
  now rewrite any_char_rstrip, any_char_lstrip.
Qed.

Lemma split_lstrip (s : string) : split (lstrip s) = split s.
Proof.
  unfold split; induction s as [|c s IH]; cbn [lstrip split_from]; [reflexivity|].
  destruct (isspace c) eqn:E; [exact IH | cbn [split_from]; now rewrite E].
Qed.

Lemma split_from_rstrip (s w : string) :
  split_from w (rstrip s) = split_from w s.
Proof.
  revert w; induction s as [|c s IH]; intros w; [reflexivity|].
  cbn [rstrip]. destruct (rstrip s) eqn:Er.
  - destruct (isspace c) eqn:E; cbn [split_from]; rewrite ?E.
    + now rewrite <- IH.
    + now rewrite <- IH.
  - cbn [split_from]. destruct (isspace c); now rewrite <- IH.
Qed.

Lemma split_strip (s : string) : split (strip s) = split s.
Proof.
  unfold strip. unfold split at 1. rewrite split_from_rstrip.
  exact (split_lstrip s).
Qed.

End StringFacts.

(** ** One prompt-output pair *)

Section RowFacts.
Import Str.
Variable json_loads : string -> py Json.value.

Lemma classify_spec_unfold (p : string) :
  classify_spec p =
    let p_lower := lower p in
    if contains "derivative" p_lower || contains "integral" p_lower
       || contains "solve" p_lower then "math"
    else if contains "python" p_lower || contains "code" p_lower
            || contains "function" p_lower then "code"
    else if contains "json" p_lower || contains "object" p_lower
            || contains "key" p_lower then "json"
    else if contains "story" p_lower || contains "write" p_lower
            || contains "poem" p_lower then "writing"
    else "general".
Proof.
  unfold classify_spec, rules, first_match, existsb.
  rewrite !orb_false_r, !orb_assoc. reflexivity.
Qed.

Lemma safe_json_load_returns (s : string) :
  exists v, safe_json_load json_loads s = Ret v.
Proof.
  unfold safe_json_load, try_except. destruct (json_loads s); eauto.
Qed.

Ltac split_rules p :=
  rewrite (classify_spec_unfold p); unfold evaluate_row; cbv zeta;
  destruct (contains "derivative" (lower p) || contains "integral" (lower p)
            || contains "solve" (lower p));
  [| destruct (contains "python" (lower p) || contains "code" (lower p)
               || contains "function" (lower p));
     [| destruct (contains "json" (lower p) || contains "object" (lower p)
                  || contains "key" (lower p));
        [| destruct (contains "story" (lower p) || contains "write" (lower p)
                     || contains "poem" (lower p)) ]]].

Lemma eval_math (p o : string) :
  classify_spec p = "math" ->
  evaluate_row json_loads p o =
    Ret (mkResult "math"
           (existsb (fun sym => contains sym (out_lower o))
                    ["x"; "y"; "="; "dx"; "dy"; "6x"; "2x"]
            || is_math_expression (out_lower o))
           (List.length (split (out_lower o)))).
Proof. split_rules p; intros H; try discriminate H; reflexivity. Qed.

Lemma eval_code (p o : string) :
  classify_spec p = "code" ->
  evaluate_row json_loads p o =
    Ret (mkResult "code"
           (existsb (fun k => contains k (out_lower o))
                    ["def "; "return"; "for "; "while "])
           (List.length (split (out_lower o)))).
Proof. split_rules p; intros H; try discriminate H; reflexivity. Qed.

Lemma eval_json (p o : string) :
  classify_spec p = "json" ->
  evaluate_row json_loads p o =
    Ret (mkResult "json"
           (if looks_like_json o
            then match json_loads o with
                 | Ret v => is_not_None v
                 | Raise _ => false
                 end
            else false)
           (List.length (split (out_lower o)))).
Proof.
  split_rules p; intros H; try discriminate H.
  destruct (looks_like_json o); [|reflexivity].
  unfold safe_json_load, try_except. destruct (json_loads o); reflexivity.
Qed.

Lemma eval_writing (p o : string) :
  classify_spec p = "writing" ->
  evaluate_row json_loads p o =
    Ret (mkResult "writing"
           (Nat.ltb 10 (List.length (split (out_lower o)))
            && contains "." (out_lower o))
           (List.length (split (out_lower o)))).
Proof. split_rules p; intros H; try discriminate H; reflexivity. Qed.

Lemma eval_general (p o : string) :
  classify_spec p = "general" ->
  evaluate_row json_loads p o =
    Ret (mkResult "general"
           (Nat.ltb 5 (String.length (out_lower o))
            && existsb (fun w => contains w (out_lower o))
                       (firstn 3 (split (lower p))))
           (List.length (split (out_lower o)))).
Proof. split_rules p; intros H; try discriminate H; reflexivity. Qed.

Lemma classify_spec_labels (p : string) : In (classify_spec p) labels.
Proof.
  rewrite classify_spec_unfold. cbv zeta. unfold labels.
  repeat match goal with
         | |- context [if ?b then _ else _] => destruct b
         end; simpl; auto 10.
Qed.

Lemma eval_category (p o : string) :
  exists r, evaluate_row json_loads p o = Ret r
            /\ category r = classify_spec p.
Proof.
  destruct (classify_spec_labels p) as [H|[H|[H|[H|[H|[]]]]]]; symmetry in H.
  - rewrite (eval_math p o H). eexists; split; [reflexivity | now rewrite H].
  - rewrite (eval_code p o H). eexists; split; [reflexivity | now rewrite H].
  - rewrite (eval_json p o H). eexists; split; [reflexivity | now rewrite H].
  - rewrite (eval_writing p o H). eexists; split; [reflexivity | now rewrite H].
  - rewrite (eval_general p o H). eexists; split; [reflexivity | now rewrite H].
Qed.

End RowFacts.

(** ** The JSON decoder *)

Section JsonFacts.
Import Str Json.
Variable parse_constant : string -> py value.

Ltac each_char c :=
  destruct c as [[] [] [] [] [] [] [] []].

Lemma is_ws_isspace (c : ascii) : is_ws c = true -> isspace c = true.
Proof. each_char c; vm_compute; intros H; first [reflexivity | discriminate H]. Qed.

(** White space that [str.strip] removes and the decoder does not skip
    starts no JSON value. *)
Lemma scan_once_space (fuel : nat) (c : ascii) (r : string) :
  isspace c = true -> is_ws c = false ->
  exists e, scan_once parse_constant fuel (String c r) = Raise e.
Proof.
  intros Hs Hw. destruct fuel as [|fuel]; [simpl; eauto|].
  each_char c; vm_compute in Hs; try discriminate Hs;
    vm_compute in Hw; try discriminate Hw;
    exists JSONDecodeError; vm_compute; reflexivity.
Qed.

Lemma skip_ws_lstrip (s : string) :
  skip_ws s = lstrip s
  \/ exists c r, skip_ws s = String c r /\ isspace c = true /\ is_ws c = false.
Proof.
  induction s as [|c s IH]; cbn [skip_ws lstrip]; [now left|].
  destruct (is_ws c) eqn:Ew.
  - rewrite (is_ws_isspace _ Ew). exact IH.
  - destruct (isspace c) eqn:Es; [right; eauto | now left].
Qed.

Lemma parse_array_not_None (fuel : nat) :
  forall s acc v r,
    parse_array parse_constant fuel s acc = Ret (v, r) -> is_not_None v = true.
Proof.
  induction fuel as [|fuel IH]; intros s acc v r; cbn [parse_array]; [discriminate|].
  destruct (scan_once parse_constant fuel s) as [[v0 r0]|]; cbn [bind]; [|discriminate].
  destruct (skip_ws r0) as [|c r1]; [discriminate|].
  destruct (Ascii.eqb c "]").
  - intros H; injection H as <- _; reflexivity.
  - destruct (Ascii.eqb c ","); [apply IH | discriminate].
Qed.

Lemma parse_object_not_None (fuel : nat) :
  forall s acc v r,
    parse_object parse_constant fuel s acc = Ret (v, r) -> is_not_None v = true.
Proof.
  induction fuel as [|fuel IH]; intros s acc v r; cbn [parse_object]; [discriminate|].
  destruct (scanstring s []) as [[key r0]|]; cbn [bind]; [|discriminate].
  destruct (skip_ws r0) as [|c r1]; [discriminate|].
  destruct (Ascii.eqb c ":"); [|discriminate].
  destruct (scan_once parse_constant fuel (skip_ws r1)) as [[v0 r2]|]; cbn [bind]; [|discriminate].
  destruct (skip_ws r2) as [|c2 r3]; [discriminate|].
  destruct (Ascii.eqb c2 "}").
  - intros H; injection H as <- _; reflexivity.
  - destruct (Ascii.eqb c2 ","); [|discriminate].
    destruct (skip_ws r3) as [|c3 r4]; [discriminate|].
    destruct (Ascii.eqb c3 dquote); [apply IH | discriminate].
Qed.

Lemma scan_once_container (fuel : nat) (s : string) (v : value) (r : string) :
  StartsWith "{" s \/ StartsWith "[" s ->
  scan_once parse_constant fuel s = Ret (v, r) -> is_not_None v = true.
Proof.
  destruct fuel as [|fuel]; [discriminate|].
  intros [[s' ->] | [s' ->]]; cbn [scan_once];
    (change (Ascii.eqb "{" dquote) with false
     || change (Ascii.eqb "[" dquote) with false); cbv iota.
  - rewrite Ascii.eqb_refl.
    destruct (skip_ws s') as [|c1 r1]; [discriminate|].
    destruct (Ascii.eqb c1 "}").
    + intros H; injection H as <- _; reflexivity.
    + destruct (Ascii.eqb c1 dquote); [apply parse_object_not_None | discriminate].
  - change (Ascii.eqb "[" "{") with false; cbv iota. rewrite Ascii.eqb_refl.
    destruct (skip_ws s') as [|c1 r1]; [discriminate|].
    destruct (Ascii.eqb c1 "]").
    + intros H; injection H as <- _; reflexivity.
    + apply parse_array_not_None.
Qed.

(** When the trimmed text starts with a brace or a bracket, what
    [json.loads] returns is a [dict] or a [list], never [None]. *)
Lemma decode_container (s : string) (v : value) :
  StartsWith "{" (strip s) \/ StartsWith "[" (strip s) ->
  decode parse_constant s = Ret v -> is_not_None v = true.
Proof.
  rewrite !strip_StartsWith. intros Hs. unfold decode.
  destruct (scan_once parse_constant (fuel_for s) (skip_ws s)) as [[v0 r0]|] eqn:E;
    cbn [bind]; [|discriminate].
  destruct (skip_ws r0); [|discriminate].
  intros H; injection H as <-.
  destruct (skip_ws_lstrip s) as [Heq | [c [r [Heq [Hc Hw]]]]].
  - rewrite Heq in E. exact (scan_once_container _ _ _ _ Hs E).
  - rewrite Heq in E.
    destruct (scan_once_space (fuel_for s) c r Hc Hw) as [e He]. congruence.
Qed.

Lemma looks_like_json_StartsWith (s : string) :
  looks_like_json s = true
  <-> StartsWith "{" (strip s) \/ StartsWith "[" (strip s).
Proof.
  unfold looks_like_json, startswith, StartsWith. cbv zeta.
  rewrite orb_true_iff, !prefix_app.
  split; (intros [[x Hx] | [x Hx]]; [left | right]); exists x; exact Hx.
Qed.

(** *** The decoder never runs out of fuel *)

Lemma skip_ws_length (s : string) :
  String.length (skip_ws s) <= String.length s.
Proof.
  induction s as [|c s IH]; cbn [skip_ws]; [lia|].
  destruct (is_ws c); cbn [String.length]; lia.
Qed.

Lemma take_digits_length (s ds r : string) :
  take_digits s = (ds, r) -> String.length r <= String.length s.
Proof.
  revert ds r; induction s as [|c s IH]; intros ds r; cbn [take_digits].
  - intros H; injection H as <- <-. lia.
  - destruct (is_digit c).
    + destruct (take_digits s) as [ds' r'] eqn:E.
      intros H; injection H as <- <-.
      specialize (IH ds' r' eq_refl). cbn [String.length]. lia.
    + intros H; injection H as <- <-. lia.
Qed.

Lemma literal_length (lit s r : string) :
  literal lit s = Some r -> String.length r <= String.length s.
Proof.
  revert s; induction lit as [|a lit IH]; intros s; cbn [literal].
  - now intros H; injection H as <-.
  - destruct s as [|b s]; [discriminate|].
    destruct (Ascii.eqb a b); [|discriminate].
    intros H. apply IH in H. cbn [String.length]. lia.
Qed.

Lemma match_integer_length (s i r : string) :
  match_integer s = Some (i, r) -> String.length r < String.length s.
Proof.
  unfold match_integer.
  destruct s as [|c s']; [discriminate|].
  destruct (Ascii.eqb c "-").
  - destruct s' as [|c1 s2]; [discriminate|].
    destruct (Ascii.eqb c1 "0").
    + intros H; injection H as _ <-. cbn [String.length]. lia.
    + destruct (between 49 57 c1); [|discriminate].
      destruct (take_digits s2) as [ds r'] eqn:E.
      intros H; injection H as _ <-.
      apply take_digits_length in E. cbn [String.length]. lia.
  - destruct (Ascii.eqb c "0").
    + intros H; injection H as _ <-. cbn [String.length]. lia.
    + destruct (between 49 57 c); [|discriminate].
      destruct (take_digits s') as [ds r'] eqn:E.
      intros H; injection H as _ <-.
      apply take_digits_length in E. cbn [String.length]. lia.
Qed.

Lemma match_frac_length (s f r : string) :
  match_frac s = (f, r) -> String.length r <= String.length s.
Proof.
  unfold match_frac. destruct s as [|c s'].
  - now intros H; injection H as _ <-.
  - destruct (Ascii.eqb c ".").
    + destruct (take_digits s') as [ds r'] eqn:E.
      apply take_digits_length in E.
      destruct ds; intros H; injection H as _ <-; cbn [String.length]; lia.
    + now intros H; injection H as _ <-.
Qed.

Lemma match_exp_length (s x r : string) :
  match_exp s = (x, r) -> String.length r <= String.length s.
Proof.
  unfold match_exp. destruct s as [|e s'].
  - now intros H; injection H as _ <-.
  - destruct (Ascii.eqb e "e" || Ascii.eqb e "E").
    + destruct s' as [|c s''].
      * cbn [take_digits]. now intros H; injection H as _ <-.
      * destruct (Ascii.eqb c "-" || Ascii.eqb c "+").
        -- destruct (take_digits s'') as [ds r'] eqn:E.
           apply take_digits_length in E.
           destruct ds; intros H; injection H as _ <-; cbn [String.length]; lia.
        -- destruct (take_digits (String c s'')) as [ds r'] eqn:E.
           apply take_digits_length in E.
           destruct ds; intros H; injection H as _ <-;
             cbn [String.length] in *; lia.
    + now intros H; injection H as _ <-.
Qed.

Lemma match_number_length (s : string) (v : value) (r : string) :
  match_number s = Some (v, r) -> String.length r <= String.length s.
Proof.
  unfold match_number.
  destruct (match_integer s) as [[i r1]|] eqn:Ei; [|discriminate].
  destruct (match_frac r1) as [f r2] eqn:Ef.
  destruct (match_exp r2) as [x r3] eqn:Ex.
  apply match_integer_length in Ei. apply match_frac_length in Ef.
  apply match_exp_length in Ex.
  destruct f, x; intros H; injection H as _ <-; lia.
Qed.

Ltac open_match H :=
  match type of H with
  | context [match ?x with _ => _ end] =>
      match x with
      | context [match _ with _ => _ end] => fail 1
      | _ => destruct x eqn:?; try discriminate H
      end
  end.

Lemma scanstring_length (n : nat) :
  forall s acc x r,
    String.length s <= n ->
    scanstring s acc = Ret (x, r) -> String.length r < String.length s.
Proof.
  induction n as [|n IH]; intros s acc x r Hn H.
  - destruct s; [discriminate H | cbn [String.length] in Hn; lia].
  - destruct s as [|c s']; [discriminate H|].
    cbn [scanstring] in H. cbn [String.length] in Hn.
    repeat open_match H; subst; cbn [String.length] in *;
      first [ injection H as _ <-; lia
            | apply IH in H; cbn [String.length] in *; lia ].
Qed.

Lemma scanstring_error (n : nat) :
  forall s acc e,
    String.length s <= n ->
    scanstring s acc = Raise e -> e = JSONDecodeError.
Proof.
  induction n as [|n IH]; intros s acc e Hn H.
  - destruct s; [now injection H as <- | cbn [String.length] in Hn; lia].
  - destruct s as [|c s']; [now injection H as <-|].
    cbn [scanstring] in H. cbn [String.length] in Hn.
    repeat open_match H; subst; cbn [String.length] in *;
      first [ now injection H as <-
            | apply IH in H; [exact H | cbn [String.length] in *; lia] ].
Qed.

Lemma scan_atom_length (s : string) (v : value) (r : string) :
  scan_atom parse_constant s = Ret (v, r) -> String.length r <= String.length s.
Proof.
  unfold scan_atom, constant, bind. intros H.
  repeat open_match H; inversion H; subst;
    repeat match goal with
           | E : literal _ _ = Some _ |- _ => apply literal_length in E
           | E : match_number _ = Some _ |- _ => apply match_number_length in E
           end;
    lia.
Qed.

Ltac skipped :=
  repeat match goal with
         | E : skip_ws ?a = _ |- _ =>
             let Hl := fresh "Hl" in
             pose proof (skip_ws_length a) as Hl; rewrite E in Hl;
             cbn [String.length] in Hl; revert E
         end;
  intros.

Lemma scan_length (fuel : nat) :
  (forall s v r, scan_once parse_constant fuel s = Ret (v, r) ->
                 String.length r <= String.length s)
  /\ (forall s acc v r, parse_array parse_constant fuel s acc = Ret (v, r) ->
                        String.length r <= String.length s)
  /\ (forall s acc v r, parse_object parse_constant fuel s acc = Ret (v, r) ->
                        String.length r <= String.length s).
Proof.
  induction fuel as [|fuel [IHs [IHa IHo]]];
    [repeat split; intros; discriminate|].
  repeat split.
  - intros s v r H. cbn [scan_once] in H.
    destruct s as [|c s']; [discriminate H|]. cbn [String.length].
    destruct (Ascii.eqb c dquote).
    { destruct (scanstring s' []) as [[str r0]|] eqn:E; cbn [bind] in H;
        [|discriminate H].
      injection H as _ <-. apply (scanstring_length _ _ _ _ _ (le_n _)) in E. lia. }
    destruct (Ascii.eqb c "{").
    { destruct (skip_ws s') as [|c1 r1] eqn:E; [discriminate H|]. skipped.
      destruct (Ascii.eqb c1 "}"); [injection H as _ <-; lia|].
      destruct (Ascii.eqb c1 dquote); [|discriminate H].
      apply IHo in H. lia. }
    destruct (Ascii.eqb c "[").
    { destruct (skip_ws s') as [|c1 r1] eqn:E; [discriminate H|]. skipped.
      destruct (Ascii.eqb c1 "]"); [injection H as _ <-; lia|].
      apply IHa in H. cbn [String.length] in H. lia. }
    apply scan_atom_length in H. cbn [String.length] in H. lia.
  - intros s acc v r H. cbn [parse_array] in H.
    destruct (scan_once parse_constant fuel s) as [[v0 r0]|] eqn:E0;
      cbn [bind] in H; [|discriminate H].
    apply IHs in E0.
    destruct (skip_ws r0) as [|c r1] eqn:E; [discriminate H|]. skipped.
    destruct (Ascii.eqb c "]"); [injection H as _ <-; lia|].
    destruct (Ascii.eqb c ","); [|discriminate H].
    apply IHa in H. pose proof (skip_ws_length r1). lia.
  - intros s acc v r H. cbn [parse_object] in H.
    destruct (scanstring s []) as [[key r0]|] eqn:E0; cbn [bind] in H;
      [|discriminate H].
    apply (scanstring_length _ _ _ _ _ (le_n _)) in E0.
    destruct (skip_ws r0) as [|c r1] eqn:E; [discriminate H|]. skipped.
    destruct (Ascii.eqb c ":"); [|discriminate H].
    destruct (scan_once parse_constant fuel (skip_ws r1)) as [[v0 r2]|] eqn:E1;
      cbn [bind] in H; [|discriminate H].
    apply IHs in E1. pose proof (skip_ws_length r1).
    destruct (skip_ws r2) as [|c2 r3] eqn:E2; [discriminate H|]. skipped.
    destruct (Ascii.eqb c2 "}"); [injection H as _ <-; lia|].
    destruct (Ascii.eqb c2 ","); [|discriminate H].
    destruct (skip_ws r3) as [|c3 r4] eqn:E3; [discriminate H|]. skipped.
    destruct (Ascii.eqb c3 dquote); [|discriminate H].
    apply IHo in H. lia.
Qed.

Hypothesis hook_returns_or_fails :
  forall name, parse_constant name <> Raise RecursionError.

Lemma scan_atom_error (s : string) :
  scan_atom parse_constant s <> Raise RecursionError.
Proof.
  unfold scan_atom, constant, bind. intros H.
  repeat open_match H;
    match goal with
    | E : parse_constant ?n = Raise _ |- _ =>
        injection H as ->; exact (hook_returns_or_fails n E)
    end.
Qed.

Lemma scanstring_fails (s : string) (acc : list N) :
  scanstring s acc <> Raise RecursionError.
Proof.
  intros H. apply (scanstring_error _ _ _ _ (le_n _)) in H. discriminate H.
Qed.

Lemma scan_fuel (fuel : nat) :
  (forall s, 2 * String.length s + 1 <= fuel ->
             scan_once parse_constant fuel s <> Raise RecursionError)
  /\ (forall s acc, 2 * String.length s + 2 <= fuel ->
                    parse_array parse_constant fuel s acc <> Raise RecursionError)
  /\ (forall s acc, 2 * String.length s + 2 <= fuel ->
                    parse_object parse_constant fuel s acc <> Raise RecursionError).
Proof.
  induction fuel as [|fuel [IHs [IHa IHo]]];
    [repeat split; intros; lia|].
  repeat split.
  - intros s Hf H. cbn [scan_once] in H.
    destruct s as [|c s']; [discriminate H|]. cbn [String.length] in Hf.
    destruct (Ascii.eqb c dquote).
    { destruct (scanstring s' []) as [[str r0]|] eqn:E; cbn [bind] in H;
        [discriminate H|].
      injection H as ->. exact (scanstring_fails _ _ E). }
    destruct (Ascii.eqb c "{").
    { destruct (skip_ws s') as [|c1 r1] eqn:E; [discriminate H|]. skipped.
      destruct (Ascii.eqb c1 "}"); [discriminate H|].
      destruct (Ascii.eqb c1 dquote); [|discriminate H].
      apply IHo in H; [exact H | lia]. }
    destruct (Ascii.eqb c "[").
    { destruct (skip_ws s') as [|c1 r1] eqn:E; [discriminate H|]. skipped.
      destruct (Ascii.eqb c1 "]"); [discriminate H|].
      apply IHa in H; [exact H | cbn [String.length]; lia]. }
    exact (scan_atom_error _ H).
  - intros s acc Hf H. cbn [parse_array] in H.
    destruct (scan_once parse_constant fuel s) as [[v0 r0]|] eqn:E0;
      cbn [bind] in H.
    + apply (proj1 (scan_length fuel)) in E0.
      destruct (skip_ws r0) as [|c r1] eqn:E; [discriminate H|]. skipped.
      destruct (Ascii.eqb c "]"); [discriminate H|].
      destruct (Ascii.eqb c ","); [|discriminate H].
      pose proof (skip_ws_length r1).
      apply IHa in H; [exact H | lia].
    + injection H as ->. apply IHs in E0; [exact E0 | lia].
  - intros s acc Hf H. cbn [parse_object] in H.
    destruct (scanstring s []) as [[key r0]|] eqn:E0; cbn [bind] in H.
    + apply (scanstring_length _ _ _ _ _ (le_n _)) in E0.
      destruct (skip_ws r0) as [|c r1] eqn:E; [discriminate H|]. skipped.
      destruct (Ascii.eqb c ":"); [|discriminate H].
      pose proof (skip_ws_length r1).
      destruct (scan_once parse_constant fuel (skip_ws r1)) as [[v0 r2]|] eqn:E1;
        cbn [bind] in H.
      * apply (proj1 (scan_length fuel)) in E1.
        destruct (skip_ws r2) as [|c2 r3] eqn:E2; [discriminate H|]. skipped.
        destruct (Ascii.eqb c2 "}"); [discriminate H|].
        destruct (Ascii.eqb c2 ","); [|discriminate H].
        destruct (skip_ws r3) as [|c3 r4] eqn:E3; [discriminate H|]. skipped.
        destruct (Ascii.eqb c3 dquote); [|discriminate H].
        apply IHo in H; [exact H | lia].
      * injection H as ->. apply IHs in E1; [exact E1 | lia].
    + injection H as ->. exact (scanstring_fails _ _ E0).
Qed.

(** [decode] fails with [JSONDecodeError] only. *)
Lemma decode_fuel (s : string) : decode parse_constant s <> Raise RecursionError.
Proof.
  unfold decode, fuel_for. intros H.
  destruct (scan_once parse_constant (2 * String.length s + 2) (skip_ws s))
    as [[v r]|] eqn:E; cbn [bind] in H.
  - destruct (skip_ws r); discriminate H.
  - injection H as ->. pose proof (skip_ws_length s).
    apply (proj1 (scan_fuel _)) in E; [exact E | lia].
Qed.

End JsonFacts.

Section DecoderFacts.
Import Str Json.

Lemma loads_fuel (s : string) : loads s <> Raise RecursionError.
Proof. apply decode_fuel. intros name; discriminate. Qed.

Lemma strict_loads_fuel (s : string) : strict_loads s <> Raise RecursionError.
Proof. apply decode_fuel. intros name; discriminate. Qed.

Lemma scan_atom_strict (s : string) (x : value * string) :
  scan_atom no_constant s = Ret x -> scan_atom default_constant s = Ret x.
Proof.
  unfold scan_atom, constant, no_constant, bind.
  destruct (literal "null" s); [auto|].
  destruct (literal "true" s); [auto|].
  destruct (literal "false" s); [auto|].
  destruct (match_number s); [auto|].
  destruct (literal "NaN" s); [discriminate|].
  destruct (literal "Infinity" s); [discriminate|].
  destruct (literal "-Infinity" s); discriminate.
Qed.

Lemma scan_strict (fuel : nat) :
  (forall s x, scan_once no_constant fuel s = Ret x ->
               scan_once default_constant fuel s = Ret x)
  /\ (forall s acc x, parse_array no_constant fuel s acc = Ret x ->
                      parse_array default_constant fuel s acc = Ret x)
  /\ (forall s acc x, parse_object no_constant fuel s acc = Ret x ->
                      parse_object default_constant fuel s acc = Ret x).
Proof.
  induction fuel as [|fuel [IHs [IHa IHo]]];
    [repeat split; intros; discriminate|].
  repeat split.
  - intros s x. cbn [scan_once].
    destruct s as [|c s']; [discriminate|].
    destruct (Ascii.eqb c dquote); [auto|].
    destruct (Ascii.eqb c "{").
    { destruct (skip_ws s') as [|c1 r1]; [discriminate|].
      destruct (Ascii.eqb c1 "}"); [auto|].
      destruct (Ascii.eqb c1 dquote); [apply IHo | discriminate]. }
    destruct (Ascii.eqb c "[").
    { destruct (skip_ws s') as [|c1 r1]; [discriminate|].
      destruct (Ascii.eqb c1 "]"); [auto | apply IHa]. }
    apply scan_atom_strict.
  - intros s acc x. cbn [parse_array].
    destruct (scan_once no_constant fuel s) as [[v0 r0]|] eqn:E0;
      cbn [bind]; [|discriminate].
    rewrite (IHs _ _ E0). cbn [bind].
    destruct (skip_ws r0) as [|c r1]; [discriminate|].
    destruct (Ascii.eqb c "]"); [auto|].
    destruct (Ascii.eqb c ","); [apply IHa | discriminate].
  - intros s acc x. cbn [parse_object].
    destruct (scanstring s []) as [[key r0]|]; cbn [bind]; [|discriminate].
    destruct (skip_ws r0) as [|c r1]; [discriminate|].
    destruct (Ascii.eqb c ":"); [|discriminate].
    destruct (scan_once no_constant fuel (skip_ws r1)) as [[v0 r2]|] eqn:E1;
      cbn [bind]; [|discriminate].
    rewrite (IHs _ _ E1). cbn [bind].
    destruct (skip_ws r2) as [|c2 r3]; [discriminate|].
    destruct (Ascii.eqb c2 "}"); [auto|].
    destruct (Ascii.eqb c2 ","); [|discriminate].
    destruct (skip_ws r3) as [|c3 r4]; [discriminate|].
    destruct (Ascii.eqb c3 dquote); [apply IHo | discriminate].
Qed.

(** The decoder above, which has none of the limits of the interpreter,
    reads every text that it reads without the constants, to the same
    value. *)
Lemma strict_loads_loads (s : string) (v : value) :
  strict_loads s = Ret v -> loads s = Ret v.
Proof.
  unfold strict_loads, loads, decode.
  destruct (scan_once no_constant (fuel_for s) (skip_ws s)) as [x|] eqn:E;
    cbn [bind]; [|discriminate].
  rewrite (proj1 (scan_strict _) _ _ E). cbn [bind]. auto.
Qed.

End DecoderFacts.

(** ** The categorizer *)

Section RuleFacts.
Import Str.

Lemma existsb_contains (keywords : list string) (s : string) :
  existsb (fun k => contains k s) keywords = true <-> Matches keywords s.
Proof.
  unfold Matches. rewrite existsb_exists.
  split; intros [k [Hk H]]; exists k; split; auto; now apply contains_Substring.
Qed.

Lemma first_match_earliest (pre post : list (list string * string))
      (keywords : list string) (label p_lower : string) :
  Matches keywords p_lower ->
  (forall kws l, In (kws, l) pre -> ~ Matches kws p_lower) ->
  first_match (pre ++ (keywords, label) :: post)%list p_lower = label.
Proof.
  intros Hm. induction pre as [|[kws l] pre IH]; intros Hpre; cbn [app first_match].
  - apply existsb_contains in Hm. now rewrite Hm.
  - destruct (existsb (fun k => contains k p_lower) kws) eqn:E.
    + apply existsb_contains in E. exfalso. apply (Hpre kws l); simpl; auto.
    + apply IH. intros kws' l' Hin. apply (Hpre kws' l'). simpl; auto.
Qed.

Lemma first_match_none (rs : list (list string * string)) (p_lower : string) :
  (forall kws l, In (kws, l) rs -> ~ Matches kws p_lower) ->
  first_match rs p_lower = "general".
Proof.
  induction rs as [|[kws l] rs IH]; intros H; cbn [first_match]; [reflexivity|].
  destruct (existsb (fun k => contains k p_lower) kws) eqn:E.
  - apply existsb_contains in E. exfalso. apply (H kws l); simpl; auto.
  - apply IH. intros kws' l' Hin. apply (H kws' l'). simpl; auto.
Qed.

End RuleFacts.

(** C1.  The category [evaluate_row] gives a prompt is the label of the
    first rule, in the order math, code, json, writing, one of whose keywords
    occurs in the lower-cased prompt, and [general] when no rule has one;
    whatever the output is.  A prompt that matches several rules gets the
    earliest one: ["Please write a python function"] is [code]. *)
Theorem classification_first_match_wins :
  (forall json_loads p o,
      exists r, evaluate_row json_loads p o = Ret r
                /\ category r = classify_spec p)
  /\ (forall p pre keywords label post,
         rules = (pre ++ (keywords, label) :: post)%list ->
         Matches keywords (Str.lower p) ->
         (forall kws l, In (kws, l) pre -> ~ Matches kws (Str.lower p)) ->
         classify_spec p = label)
  /\ (forall p,
         (forall kws l, In (kws, l) rules -> ~ Matches kws (Str.lower p)) ->
         classify_spec p = "general")
  /\ (forall json_loads o,
         exists r, evaluate_row json_loads "Please write a python function" o = Ret r
                   /\ category r = "code").
Proof.
  split; [| split; [| split]].
  - intros json_loads p o. apply eval_category.
  - intros p pre keywords label post Hr Hm Hpre.
    unfold classify_spec. rewrite Hr. now apply first_match_earliest.
  - intros p H. unfold classify_spec. now apply first_match_none.
  - intros json_loads o.
    destruct (eval_category json_loads "Please write a python function" o)
      as [r [Hr Hc]].
    exists r. split; [exact Hr | rewrite Hc; reflexivity].
Qed.

Lemma classification_first_match_wins_witness :
  classify_spec "Please write a python function" = "code"
  /\ classify_spec "hello there" = "general".
Proof.
  split.
  - apply (proj1 (proj2 classification_first_match_wins)
             "Please write a python function"
             [(["derivative"; "integral"; "solve"], "math")]
             ["python"; "code"; "function"] "code"
             [(["json"; "object"; "key"], "json");
              (["story"; "write"; "poem"], "writing")]).
    + reflexivity.
    + exists "python". split; [simpl; auto|].
      exists "please write a ", " function". reflexivity.
    + intros kws l [H|[]] Hm. injection H as <- <-.
      apply existsb_contains in Hm. vm_compute in Hm. discriminate Hm.
  - apply (proj1 (proj2 (proj2 classification_first_match_wins)) "hello there").
    intros kws l Hin Hm. apply existsb_contains in Hm.
    simpl in Hin.
    destruct Hin as [H|[H|[H|[H|[]]]]]; injection H as <- <-;
      vm_compute in Hm; discriminate Hm.
Defined.

(** ** The verdicts *)

Section VerdictFacts.
Import Str.

Lemma math_char_MathChar (c : ascii) : math_char c = true <-> MathChar c.
Proof.
  unfold math_char, MathChar, between. cbn [In].
  rewrite !orb_true_iff, andb_true_iff, !N.leb_le, !Ascii.eqb_eq.
  intuition congruence.
Qed.

Lemma is_math_expression_HasChar (s : string) :
  is_math_expression s = true <-> HasChar MathChar s.
Proof.
  unfold is_math_expression. rewrite any_char_HasChar.
  apply HasChar_iff, math_char_MathChar.
Qed.

Lemma dot_not_space (c : ascii) : Ascii.eqb "." c = true -> isspace c = false.
Proof. intros H; apply Ascii.eqb_eq in H; subst c; reflexivity. Qed.

Lemma contains_dot_HasChar (s : string) :
  contains "." s = true <-> HasChar (eq "."%char) s.
Proof.
  rewrite contains_char, any_char_HasChar.
  apply HasChar_iff. intros c. apply Ascii.eqb_eq.
Qed.

Lemma contains_dot_strip (s : string) :
  contains "." (strip s) = contains "." s.
Proof. rewrite !contains_char. apply any_char_strip, dot_not_space. Qed.

End VerdictFacts.

(** C2.  For a prompt of category math, the verdict is true exactly when the
    lower-cased, trimmed output has one of x, y, =, dx, dy, 6x, 2x as a
    substring or has a character of the class [[0-9+\-*/=]]; the output 42 to
    ["Solve for x"] is a correct math answer. *)
Theorem math_verdict :
  (forall json_loads p o,
      classify_spec p = "math" ->
      exists r, evaluate_row json_loads p o = Ret r
                /\ category r = "math"
                /\ (correct r = true <->
                    (exists sym, In sym ["x"; "y"; "="; "dx"; "dy"; "6x"; "2x"]
                                 /\ Substring sym (out_lower o))
                    \/ HasChar MathChar (out_lower o)))
  /\ (forall json_loads,
         evaluate_row json_loads "Solve for x" "42" = Ret (mkResult "math" true 1)).
Proof.
  split.
  - intros json_loads p o Hp. rewrite (eval_math json_loads p o Hp).
    eexists; split; [reflexivity|]. split; [reflexivity|].
    cbn [correct]. rewrite orb_true_iff, is_math_expression_HasChar.
    rewrite existsb_exists.
    split; (intros [[sym [Hin Hs]] | H]; [left | now right]);
      exists sym; split; auto; now apply contains_Substring.
  - intros json_loads. reflexivity.
Qed.

Lemma math_verdict_witness :
  exists r, evaluate_row Json.loads "What is the derivative of x^2?" "2X " = Ret r
            /\ category r = "math"
            /\ (correct r = true <->
                (exists sym, In sym ["x"; "y"; "="; "dx"; "dy"; "6x"; "2x"]
                             /\ Substring sym (out_lower "2X "))
                \/ HasChar MathChar (out_lower "2X ")).
Proof.
  apply (proj1 math_verdict Json.loads "What is the derivative of x^2?" "2X ").
  reflexivity.
Defined.

(** C3, as the specification states it, fails: the output [[NaN]] to a json
    prompt is judged correct, and it is no strict JSON text. *)
Lemma json_verdict_accepts_NaN :
  classify_spec "Return a json object" = "json"
  /\ evaluate_row Json.loads "Return a json object" "[NaN]"
     = Ret (mkResult "json" true 1)
  /\ StartsWith "[" (Str.strip "[NaN]")
  /\ Json.strict_loads "[NaN]" = Raise JSONDecodeError.
Proof.
  split; [reflexivity | split; [reflexivity | split; [|reflexivity]]].
  exists "NaN]". reflexivity.
Qed.

(** C3, amended.  For a prompt of category json, the verdict is true exactly
    when the trimmed output starts with a brace or a bracket and
    [json.loads] of the output succeeds.  This holds of [json.loads] as the
    interpreter runs it: of every decoder that returns nothing but what the
    decoder above returns, and may raise where that one returns (on a text
    nested deeper than the recursion limit, or with an integer of more
    digits than the interpreter converts).  The parse is not strict: an
    array that holds [NaN], [Infinity] or [-Infinity] is judged correct,
    and a strict JSON parse refuses it.  When the trimmed output starts with
    neither a brace nor a bracket, the verdict is false whatever the decoder
    would do, and when the decoder raises, the verdict is false and
    [evaluate_row] returns. *)
Theorem json_verdict :
  (forall json_loads p o,
      classify_spec p = "json" ->
      (forall v, json_loads o = Ret v -> Json.loads o = Ret v) ->
      exists r, evaluate_row json_loads p o = Ret r
                /\ category r = "json"
                /\ (correct r = true <->
                    (StartsWith "{" (Str.strip o) \/ StartsWith "[" (Str.strip o))
                    /\ exists v, json_loads o = Ret v))
  /\ (forall p name,
         classify_spec p = "json" ->
         In name ["NaN"; "Infinity"; "-Infinity"] ->
         evaluate_row Json.loads p ("[" ++ name ++ "]")
         = Ret (mkResult "json" true 1)
         /\ Json.strict_loads ("[" ++ name ++ "]") = Raise JSONDecodeError)
  /\ (forall json_loads p o,
         classify_spec p = "json" ->
         ~ (StartsWith "{" (Str.strip o) \/ StartsWith "[" (Str.strip o)) ->
         exists r, evaluate_row json_loads p o = Ret r
                   /\ category r = "json" /\ correct r = false)
  /\ (forall json_loads p o e,
         classify_spec p = "json" ->
         json_loads o = Raise e ->
         exists r, evaluate_row json_loads p o = Ret r
                   /\ category r = "json" /\ correct r = false).
Proof.
  split; [| split; [| split]].
  - intros json_loads p o Hp Hsub. rewrite (eval_json json_loads p o Hp).
    eexists; split; [reflexivity|]. split; [reflexivity|]. cbn [correct].
    destruct (looks_like_json o) eqn:El.
    + apply looks_like_json_StartsWith in El.
      destruct (json_loads o) as [v|e] eqn:Ev.
      * rewrite (decode_container _ o v El (Hsub v eq_refl)). split; eauto.
      * split; [discriminate | intros [_ [v Hv]]; discriminate].
    + split; [discriminate|]. intros [Hs _].
      apply looks_like_json_StartsWith in Hs. congruence.
  - intros p name Hp Hin. rewrite (eval_json Json.loads p _ Hp).
    cbn [In] in Hin. destruct Hin as [<- | [<- | [<- | []]]];
      split; reflexivity.
  - intros json_loads p o Hp Hs. rewrite (eval_json json_loads p o Hp).
    eexists; split; [reflexivity|]. split; [reflexivity|]. cbn [correct].
    destruct (looks_like_json o) eqn:El; [|reflexivity].
    apply looks_like_json_StartsWith in El. contradiction.
  - intros json_loads p o e Hp He. rewrite (eval_json json_loads p o Hp).
    eexists; split; [reflexivity|]. split; [reflexivity|]. cbn [correct].
    rewrite He. now destruct (looks_like_json o).
Qed.

Lemma json_verdict_witness :
  (exists r, evaluate_row Json.loads "Return a json object" "  [1, 2] " = Ret r
             /\ category r = "json"
             /\ (correct r = true <->
                 (StartsWith "{" (Str.strip "  [1, 2] ")
                  \/ StartsWith "[" (Str.strip "  [1, 2] "))
                 /\ exists v, Json.loads "  [1, 2] " = Ret v))
  /\ (exists r,
         evaluate_row
           (fun s => if Nat.ltb 8 (String.length s) then Raise RecursionError
                     else Json.loads s)
           "Return a json object" "[[[[[[]]]]]]" = Ret r
         /\ category r = "json"
         /\ (correct r = true <->
             (StartsWith "{" (Str.strip "[[[[[[]]]]]]")
              \/ StartsWith "[" (Str.strip "[[[[[[]]]]]]"))
             /\ exists v,
                 (if Nat.ltb 8 (String.length "[[[[[[]]]]]]")
                  then Raise RecursionError
                  else Json.loads "[[[[[[]]]]]]") = Ret v))
  /\ (evaluate_row Json.loads "Return a json object" ("[" ++ "Infinity" ++ "]")
      = Ret (mkResult "json" true 1)
      /\ Json.strict_loads ("[" ++ "Infinity" ++ "]") = Raise JSONDecodeError)
  /\ (exists r, evaluate_row Json.loads "Return a json object" "null" = Ret r
                /\ category r = "json" /\ correct r = false)
  /\ (exists r, evaluate_row Json.loads "Return a json object" "{not valid}" = Ret r
                /\ category r = "json" /\ correct r = false).
Proof.
  split; [| split; [| split; [| split]]].
  - apply (proj1 json_verdict Json.loads "Return a json object" "  [1, 2] ").
    + reflexivity.
    + intros v H. exact H.
  - apply (proj1 json_verdict
             (fun s => if Nat.ltb 8 (String.length s) then Raise RecursionError
                       else Json.loads s)
             "Return a json object" "[[[[[[]]]]]]").
    + reflexivity.
    + intros v H. vm_compute in H. discriminate H.
  - apply (proj1 (proj2 json_verdict) "Return a json object" "Infinity").
    + reflexivity.
    + simpl. auto.
  - apply (proj1 (proj2 (proj2 json_verdict)) Json.loads
             "Return a json object" "null").
    + reflexivity.
    + intros [[x Hx] | [x Hx]]; vm_compute in Hx; discriminate Hx.
  - apply (proj2 (proj2 (proj2 json_verdict)) Json.loads "Return a json object"
             "{not valid}" JSONDecodeError); reflexivity.
Defined.

(** The two outputs the specification tests strictness with. *)
Example json_strictness :
  evaluate_row Json.loads "Return a json object" "{not valid}"
  = Ret (mkResult "json" false 2)
  /\ evaluate_row Json.loads "Return a json object"
       ("{" ++ String Json.dquote "a" ++ String Json.dquote ": 1}")
     = Ret (mkResult "json" true 2).
Proof. split; reflexivity. Qed.

(** C4, as the specification states it, fails: the output ["banana bread"]
    to the prompt ["a question"] is judged correct because the prompt word
    [a] occurs inside [banana], although the two texts have no word in
    common. *)
Lemma general_verdict_not_token_overlap :
  classify_spec "a question" = "general"
  /\ evaluate_row Json.loads "a question" "banana bread"
     = Ret (mkResult "general" true 2)
  /\ ~ SharesToken "a question" "banana bread".
Proof.
  split; [reflexivity | split; [reflexivity|]].
  intros [w [Hp Ho]]. vm_compute in Hp, Ho.
  destruct Hp as [<- | [<- | []]];
    destruct Ho as [H | [H | []]]; discriminate H.
Qed.

(** C4, amended.  For a prompt of category general, the verdict is true
    exactly when the lower-cased, trimmed output is longer than 5 characters
    and has one of the first three words of the lower-cased prompt as a
    substring. *)
Theorem general_verdict :
  forall json_loads p o,
    classify_spec p = "general" ->
    exists r, evaluate_row json_loads p o = Ret r
              /\ category r = "general"
              /\ (correct r = true <->
                  5 < String.length (out_lower o)
                  /\ exists w, In w (firstn 3 (Str.split (Str.lower p)))
                               /\ Substring w (out_lower o)).
Proof.
  intros json_loads p o Hp. rewrite (eval_general json_loads p o Hp).
  eexists; split; [reflexivity|]. split; [reflexivity|]. cbn [correct].
  rewrite andb_true_iff, Nat.ltb_lt, existsb_exists.
  split; intros [Hlen [w [Hin Hw]]]; (split; [exact Hlen|]);
    exists w; split; auto; now apply contains_Substring.
Qed.

Lemma general_verdict_witness :
  exists r, evaluate_row Json.loads "a question" "banana bread" = Ret r
            /\ category r = "general"
            /\ (correct r = true <->
                5 < String.length (out_lower "banana bread")
                /\ exists w, In w (firstn 3 (Str.split (Str.lower "a question")))
                             /\ Substring w (out_lower "banana bread")).
Proof.
  apply (general_verdict Json.loads "a question" "banana bread"). reflexivity.
Defined.

(** C5.  For a prompt of category writing, the verdict is true exactly when
    the lower-cased output has more than 10 words and has a full stop: ten
    words and a full stop are not enough, eleven are. *)
Theorem writing_verdict :
  (forall json_loads p o,
      classify_spec p = "writing" ->
      exists r, evaluate_row json_loads p o = Ret r
                /\ category r = "writing"
                /\ (correct r = true <->
                    10 < List.length (Str.split (Str.lower o))
                    /\ HasChar (eq "."%char) (Str.lower o)))
  /\ (forall json_loads,
         evaluate_row json_loads "Write a poem about the sea"
           "one two three four five six seven eight nine ten."
         = Ret (mkResult "writing" false 10))
  /\ (forall json_loads,
         evaluate_row json_loads "Write a poem about the sea"
           "one two three four five six seven eight nine ten eleven."
         = Ret (mkResult "writing" true 11)).
Proof.
  split; [| split; intros json_loads; reflexivity].
  intros json_loads p o Hp. rewrite (eval_writing json_loads p o Hp).
  eexists; split; [reflexivity|]. split; [reflexivity|]. cbn [correct].
  unfold out_lower.
  rewrite split_strip, contains_dot_strip, andb_true_iff, Nat.ltb_lt.
  now rewrite contains_dot_HasChar.
Qed.

Lemma writing_verdict_witness :
  exists r, evaluate_row Json.loads "Tell me a STORY" " A b c d e f g h i j K. " = Ret r
            /\ category r = "writing"
            /\ (correct r = true <->
                10 < List.length (Str.split (Str.lower " A b c d e f g h i j K. "))
                /\ HasChar (eq "."%char) (Str.lower " A b c d e f g h i j K. ")).
Proof.
  apply (proj1 writing_verdict Json.loads "Tell me a STORY"
           " A b c d e f g h i j K. ").
  reflexivity.
Defined.

(** C9.  [evaluate_row] returns on every pair of strings, whatever the
    decoder does, and the category of its result is one of math, code, json,
    writing and general; the empty prompt with the empty output is a general
    pair judged incorrect. *)
Theorem evaluate_row_total :
  (forall json_loads p o,
      exists r, evaluate_row json_loads p o = Ret r /\ In (category r) labels)
  /\ (forall json_loads,
         evaluate_row json_loads "" "" = Ret (mkResult "general" false 0)).
Proof.
  split; [| intros json_loads; reflexivity].
  intros json_loads p o.
  destruct (eval_category json_loads p o) as [r [Hr Hc]].
  exists r. split; [exact Hr|]. rewrite Hc. apply classify_spec_labels.
Qed.

(** Letters outside ASCII are lower-cased too: the prompt is ECRIS UN POEME
    with its accents, the output a single e with an acute accent. *)
Example evaluate_row_latin1 :
  evaluate_row Json.loads
    (String (ascii_of_N 201) "CRIS UN PO" ++ String (ascii_of_N 200) "ME")
    (String (ascii_of_N 201) "")
  = Ret (mkResult "general" false 1)
  /\ evaluate_row Json.loads
       ("UN PO" ++ String (ascii_of_N 200) "ME, A STORY")
       (String (ascii_of_N 201) "")
     = Ret (mkResult "writing" false 1)
  /\ Str.lower (String (ascii_of_N 201) "T" ++ String (ascii_of_N 201) "")
     = String (ascii_of_N 233) "t" ++ String (ascii_of_N 233) "".
Proof. repeat split; reflexivity. Qed.

(** C10.  The empty output is judged incorrect for every prompt, and every
    one of the five categories has a prompt. *)
Theorem empty_output_incorrect :
  (forall json_loads p,
      exists r, evaluate_row json_loads p "" = Ret r /\ correct r = false)
  /\ (forall label, In label labels -> exists p, classify_spec p = label).
Proof.
  split.
  - intros json_loads p.
    destruct (classify_spec_labels p) as [H|[H|[H|[H|[H|[]]]]]]; symmetry in H.
    + rewrite (eval_math json_loads p "" H). eexists; split; reflexivity.
    + rewrite (eval_code json_loads p "" H). eexists; split; reflexivity.
    + rewrite (eval_json json_loads p "" H). eexists; split; reflexivity.
    + rewrite (eval_writing json_loads p "" H). eexists; split; reflexivity.
    + rewrite (eval_general json_loads p "" H). eexists; split; reflexivity.
  - intros label [<-|[<-|[<-|[<-|[<-|[]]]]]].
    + exists "solve". reflexivity.
    + exists "code". reflexivity.
    + exists "json". reflexivity.
    + exists "poem". reflexivity.
    + exists "". reflexivity.
Qed.

Lemma empty_output_incorrect_witness :
  exists p, classify_spec p = "writing".
Proof.
  apply (proj2 empty_output_incorrect "writing"). simpl. auto.
Defined.

(** ** The counting loop *)

Section CountingFacts.

Ltac run_dict H :=
  repeat (progress (cbn [Dict.setdefault Dict.get Dict.setitem bind bump
                         Stats.total Stats.correct];
                    rewrite ?String.eqb_refl, ?H)).

Lemma count_category_cons (k : string) (s : Stats.t) (d : Dict.t Stats.t)
      (res : EvalResult) :
  String.eqb (category res) k = false ->
  count_category ((k, s) :: d) res
  = bind (count_category d res) (fun d' => Ret ((k, s) :: d')).
Proof.
  intros Hk. unfold count_category, Dict.getitem. cbv zeta. run_dict Hk.
  destruct (Dict.get (category res) (Dict.setdefault (category res) (Stats.mk 0 0) d))
    as [s0|]; run_dict Hk; [|reflexivity].
  destruct (correct res); run_dict Hk; [|reflexivity].
  destruct (Dict.get (category res) _) as [s1|]; run_dict Hk; reflexivity.
Qed.

(** [count_category] never raises [KeyError]. *)
Lemma count_category_bump (d : Dict.t Stats.t) (res : EvalResult) :
  count_category d res = Ret (bump_entry (category res) (correct res) d).
Proof.
  induction d as [|[k s] d IH].
  - unfold count_category, Dict.getitem. cbv zeta. cbn [bump_entry].
    destruct (correct res); run_dict (@eq_refl bool true); reflexivity.
  - cbn [bump_entry]. destruct (String.eqb (category res) k) eqn:Hk.
    + unfold count_category, Dict.getitem. cbv zeta.
      destruct (correct res); run_dict Hk; reflexivity.
    + rewrite (count_category_cons k s d res Hk), IH. reflexivity.
Qed.

Lemma tally_all_bump (results : list EvalResult) (st : Counters) :
  tally_all st results
  = Ret (mkCounters (run_total st)
                    (run_correct st + count_correct results)
                    (bump_all (run_stats st) results)).
Proof.
  revert st; induction results as [|r rs IH]; intros [t c d].
  - cbn. now rewrite Nat.add_0_r.
  - cbn [tally_all]. unfold tally. rewrite count_category_bump. cbn [bind].
    rewrite IH. cbn [run_total run_correct run_stats bump_all fold_left].
    unfold count_correct. cbn [filter].
    destruct (correct r); cbn [List.length]; do 2 f_equal; lia.
Qed.

Lemma get_bump_entry (c cat : string) (b : bool) (d : Dict.t Stats.t) :
  Dict.get c (bump_entry cat b d)
  = if String.eqb c cat then Some (bump b (counts_of (Dict.get cat d)))
    else Dict.get c d.
Proof.
  induction d as [|[k s] d IH]; cbn [bump_entry Dict.get counts_of].
  - reflexivity.
  - destruct (String.eqb cat k) eqn:Hk; cbn [Dict.get counts_of].
    + apply String.eqb_eq in Hk; subst k.
      now destruct (String.eqb c cat).
    + rewrite IH. destruct (String.eqb c k) eqn:Hc; [|reflexivity].
      apply String.eqb_eq in Hc; subst k.
      now rewrite String.eqb_sym, Hk.
Qed.

Lemma occ_cons (c : string) (r : EvalResult) (rs : list EvalResult) :
  occ c (r :: rs) = (if String.eqb c (category r) then 1 else 0) + occ c rs.
Proof. unfold occ; cbn [filter]. now destruct (String.eqb c (category r)). Qed.

Lemma occ_correct_cons (c : string) (r : EvalResult) (rs : list EvalResult) :
  occ_correct c (r :: rs)
  = (if String.eqb c (category r) && correct r then 1 else 0) + occ_correct c rs.
Proof.
  unfold occ_correct; cbn [filter].
  now destruct (String.eqb c (category r) && correct r).
Qed.

Lemma some_stats_eq (t t' k k' : nat) :
  t = t' -> k = k' -> Some (Stats.mk t k) = Some (Stats.mk t' k').
Proof. now intros -> ->. Qed.

(** The entry of each category after the loop: the results of the category
    are counted, and the correct ones among them. *)
Lemma get_bump_all (c : string) (rs : list EvalResult) (d : Dict.t Stats.t) :
  Dict.get c (bump_all d rs)
  = entry_after (Dict.get c d) (occ c rs) (occ_correct c rs).
Proof.
  revert d; induction rs as [|r rs IH]; intros d.
  - cbn. destruct (Dict.get c d) as [[t k]|]; cbn; [|reflexivity].
    now rewrite !Nat.add_0_r.
  - cbn [bump_all fold_left]. fold (bump_all (bump_entry (category r) (correct r) d) rs).
    rewrite IH, get_bump_entry, occ_cons, occ_correct_cons.
    destruct (String.eqb c (category r)) eqn:Hc; cbn [andb].
    + apply String.eqb_eq in Hc; subst c.
      destruct (Dict.get (category r) d) as [[t k]|], (correct r);
        cbn [entry_after counts_of bump Stats.total Stats.correct Nat.eqb Nat.add];
        apply some_stats_eq; lia.
    + reflexivity.
Qed.

Lemma sum_bump_entry (cat : string) (b : bool) (d : Dict.t Stats.t) :
  sum_total (bump_entry cat b d) = sum_total d + 1
  /\ sum_correct (bump_entry cat b d) = sum_correct d + (if b then 1 else 0).
Proof.
  unfold sum_total, sum_correct, Dict.values.
  induction d as [|[k s] d [IHt IHc]]; cbn [bump_entry].
  - destruct b; cbn; auto.
  - destruct (String.eqb cat k); cbn [map snd list_sum].
    + destruct b; simpl; lia.
    + simpl. simpl in IHt, IHc. rewrite IHt, IHc. lia.
Qed.

Lemma sum_bump_all (rs : list EvalResult) (d : Dict.t Stats.t) :
  sum_total (bump_all d rs) = sum_total d + List.length rs
  /\ sum_correct (bump_all d rs) = sum_correct d + count_correct rs.
Proof.
  revert d; induction rs as [|r rs IH]; intros d.
  - unfold count_correct. cbn [bump_all fold_left filter List.length]. lia.
  - cbn [bump_all fold_left].
    fold (bump_all (bump_entry (category r) (correct r) d) rs).
    destruct (IH (bump_entry (category r) (correct r) d)) as [Ht Hc].
    destruct (sum_bump_entry (category r) (correct r) d) as [Ht' Hc'].
    rewrite Ht, Hc, Ht', Hc'. unfold count_correct. cbn [filter List.length].
    destruct (correct r); cbn [List.length]; lia.
Qed.

(** A category enters the dictionary at its first occurrence, after the
    categories seen before it. *)
Lemma keys_bump_entry (cat : string) (b : bool) (d : Dict.t Stats.t) :
  Dict.keys (bump_entry cat b d)
  = if existsb (String.eqb cat) (Dict.keys d) then Dict.keys d
    else (Dict.keys d ++ [cat])%list.
Proof.
  unfold Dict.keys. induction d as [|[k s] d IH]; cbn [bump_entry map fst existsb].
  - reflexivity.
  - destruct (String.eqb cat k); cbn [orb map fst]; [reflexivity|].
    rewrite IH. now destruct (existsb (String.eqb cat) (map fst d)).
Qed.

Lemma existsb_eqb_In (c : string) (l : list string) :
  existsb (String.eqb c) l = true <-> In c l.
Proof.
  rewrite existsb_exists. split.
  - intros [x [Hx He]]. apply String.eqb_eq in He. now subst.
  - intros H. exists c. split; [exact H | apply String.eqb_refl].
Qed.

Lemma keys_bump_entry_In (c cat : string) (b : bool) (d : Dict.t Stats.t) :
  In c (Dict.keys (bump_entry cat b d)) <-> c = cat \/ In c (Dict.keys d).
Proof.
  rewrite keys_bump_entry.
  destruct (existsb (String.eqb cat) (Dict.keys d)) eqn:E.
  - apply existsb_eqb_In in E. split; [auto | intros [->|H]; auto].
  - rewrite in_app_iff. cbn [In]. intuition.
Qed.

Lemma keys_bump_entry_NoDup (cat : string) (b : bool) (d : Dict.t Stats.t) :
  NoDup (Dict.keys d) -> NoDup (Dict.keys (bump_entry cat b d)).
Proof.
  intros Hd. rewrite keys_bump_entry.
  destruct (existsb (String.eqb cat) (Dict.keys d)) eqn:E; [exact Hd|].
  apply NoDup_app; [exact Hd | repeat constructor; intros [] |].
  intros x Hx [<-|[]].
  apply existsb_eqb_In in Hx. congruence.
Qed.

Lemma keys_bump_all (rs : list EvalResult) (d : Dict.t Stats.t) :
  (NoDup (Dict.keys d) -> NoDup (Dict.keys (bump_all d rs)))
  /\ (forall c, In c (Dict.keys (bump_all d rs))
                <-> In c (Dict.keys d) \/ In c (map category rs)).
Proof.
  revert d; induction rs as [|r rs IH]; intros d.
  - cbn. intuition.
  - cbn [bump_all fold_left].
    fold (bump_all (bump_entry (category r) (correct r) d) rs).
    destruct (IH (bump_entry (category r) (correct r) d)) as [Hn Hi].
    split.
    + intros Hd. now apply Hn, keys_bump_entry_NoDup.
    + intros c. rewrite Hi, keys_bump_entry_In. cbn [map In]. intuition.
Qed.

End CountingFacts.

(** ** Aggregation *)

Section AggregationFacts.

Lemma accumulate_bump (results : list EvalResult) :
  accumulate results
  = Ret (mkCounters (List.length results) (count_correct results)
                    (bump_all [] results)).
Proof. unfold accumulate. now rewrite tally_all_bump. Qed.

Lemma main_loop_tally_all (json_loads : string -> py Json.value)
      (rows : list Row) :
  forall st,
  exists results,
    Forall2 (fun row res =>
               evaluate_row json_loads (prompt row) (output row) = Ret res)
            rows results
    /\ main_loop json_loads st rows = tally_all st results.
Proof.
  induction rows as [|row rows IH]; intros st.
  - exists []. split; [constructor | reflexivity].
  - destruct (eval_category json_loads (prompt row) (output row)) as [res [Hres _]].
    cbn [main_loop]. rewrite Hres. cbn [bind].
    unfold tally at 1. rewrite count_category_bump. cbn [bind].
    match goal with
    | |- context [main_loop _ ?st' rows] => destruct (IH st') as [rs [HF Hrs]]
    end.
    exists (res :: rs). split; [now constructor|].
    cbn [tally_all]. unfold tally at 1. rewrite count_category_bump. cbn [bind].
    exact Hrs.
Qed.

Lemma filter_length_Permutation {A : Type} (f : A -> bool) (l l' : list A) :
  Permutation l l' -> List.length (filter f l) = List.length (filter f l').
Proof.
  induction 1 as [| x l l' _ IH | x y l | l l' l'' _ IH1 _ IH2]; cbn [filter].
  - reflexivity.
  - destruct (f x); cbn [List.length]; now rewrite IH.
  - destruct (f x), (f y); reflexivity.
  - now rewrite IH1.
Qed.

Lemma get_Some_In {V : Type} (k : string) (v : V) (d : Dict.t V) :
  Dict.get k d = Some v -> In (k, v) d.
Proof.
  induction d as [|[k' v'] d IH]; cbn [Dict.get]; [discriminate|].
  destruct (String.eqb k k') eqn:E.
  - apply String.eqb_eq in E. intros H; injection H as ->. subst. now left.
  - intros H. right. now apply IH.
Qed.

Lemma In_get_Some {V : Type} (k : string) (v : V) (d : Dict.t V) :
  NoDup (Dict.keys d) -> In (k, v) d -> Dict.get k d = Some v.
Proof.
  unfold Dict.keys.
  induction d as [|[k' v'] d IH]; cbn [Dict.get map fst In]; [intros _ []|].
  intros Hnd [H | H].
  - injection H as -> ->. now rewrite String.eqb_refl.
  - inversion Hnd as [|? ? Hnotin Hnd']; subst.
    destruct (String.eqb k k') eqn:E.
    + apply String.eqb_eq in E; subst k'. exfalso. apply Hnotin.
      apply (in_map fst) in H. exact H.
    + now apply IH.
Qed.

(** Two dictionaries with the same entry for every key hold the same
    pairs, up to their order. *)
Lemma dict_Permutation {V : Type} (d1 d2 : Dict.t V) :
  NoDup (Dict.keys d1) -> NoDup (Dict.keys d2) ->
  (forall k, Dict.get k d1 = Dict.get k d2) ->
  Permutation d1 d2.
Proof.
  intros H1 H2 Hget.
  apply NoDup_Permutation.
  - exact (NoDup_map_inv fst d1 H1).
  - exact (NoDup_map_inv fst d2 H2).
  - intros [k v]. split; intros Hin.
    + apply get_Some_In. rewrite <- Hget. now apply In_get_Some.
    + apply get_Some_In. rewrite Hget. now apply In_get_Some.
Qed.

End AggregationFacts.

(** C6.  The aggregation of a sequence of evaluation results returns
    counters whose total is the length of the sequence, whose per-category
    totals sum to that total and whose per-category correct counts sum to the
    global correct count; the categories of the dictionary are the categories
    observed, each once.  The loop of [main] is that aggregation of the
    results of its rows. *)
Theorem aggregation_invariant :
  (forall results,
      exists st, accumulate results = Ret st
                 /\ run_total st = List.length results
                 /\ sum_total (run_stats st) = run_total st
                 /\ sum_correct (run_stats st) = run_correct st
                 /\ NoDup (Dict.keys (run_stats st))
                 /\ (forall c, In c (Dict.keys (run_stats st))
                               <-> In c (map category results)))
  /\ (forall json_loads rows,
         exists results st,
           Forall2 (fun row res =>
                      evaluate_row json_loads (prompt row) (output row) = Ret res)
                   rows results
           /\ main_loop json_loads (mkCounters (List.length rows) 0 []) rows = Ret st
           /\ accumulate results = Ret st).
Proof.
  split.
  - intros results. rewrite accumulate_bump. eexists; split; [reflexivity|].
    cbn [run_total run_correct run_stats].
    destruct (sum_bump_all results []) as [Ht Hc].
    destruct (keys_bump_all results []) as [Hn Hi].
    repeat split.
    + exact Ht.
    + exact Hc.
    + apply Hn. constructor.
    + intros H. apply Hi in H. destruct H as [[]|H]; exact H.
    + intros H. apply Hi. now right.
  - intros json_loads rows.
    destruct (main_loop_tally_all json_loads rows
                (mkCounters (List.length rows) 0 [])) as [results [HF Hm]].
    exists results. eexists. split; [exact HF|].
    assert (Hlen : List.length rows = List.length results).
    { exact (Forall2_length HF). }
    rewrite Hm, Hlen. fold (accumulate results).
    rewrite accumulate_bump. split; reflexivity.
Qed.

(** C7.  Two sequences of evaluation results that are permutations of each
    other aggregate to the same total, the same correct count and the same
    entry for every category: the two dictionaries hold the same pairs, in
    an order that may differ. *)
Theorem accumulate_order_insensitive :
  forall results1 results2,
    Permutation results1 results2 ->
    exists st1 st2,
      accumulate results1 = Ret st1
      /\ accumulate results2 = Ret st2
      /\ run_total st1 = run_total st2
      /\ run_correct st1 = run_correct st2
      /\ (forall c, Dict.get c (run_stats st1) = Dict.get c (run_stats st2))
      /\ Permutation (run_stats st1) (run_stats st2).
Proof.
  intros results1 results2 HP.
  rewrite !accumulate_bump. do 2 eexists.
  split; [reflexivity|]. split; [reflexivity|].
  cbn [run_total run_correct run_stats].
  assert (Hget : forall c, Dict.get c (bump_all [] results1)
                           = Dict.get c (bump_all [] results2)).
  { intros c. rewrite !get_bump_all. unfold occ, occ_correct.
    now rewrite (filter_length_Permutation _ _ _ HP),
                (filter_length_Permutation
                   (fun r => String.eqb c (category r) && correct r) _ _ HP). }
  repeat split.
  - now apply Permutation_length.
  - now apply filter_length_Permutation.
  - exact Hget.
  - apply dict_Permutation; [| | exact Hget];
      apply (proj1 (keys_bump_all _ [])); constructor.
Qed.

Lemma accumulate_order_insensitive_witness :
  exists st1 st2,
    accumulate [mkResult "math" true 1; mkResult "code" false 2] = Ret st1
    /\ accumulate [mkResult "code" false 2; mkResult "math" true 1] = Ret st2
    /\ run_total st1 = run_total st2
    /\ run_correct st1 = run_correct st2
    /\ (forall c, Dict.get c (run_stats st1) = Dict.get c (run_stats st2))
    /\ Permutation (run_stats st1) (run_stats st2).
Proof.
  apply (accumulate_order_insensitive
           [mkResult "math" true 1; mkResult "code" false 2]
           [mkResult "code" false 2; mkResult "math" true 1]).
  apply perm_swap.
Defined.

(** The order of the categories in the dictionary does depend on the order
    of the results. *)
Example accumulate_order_of_keys :
  (exists st, accumulate [mkResult "math" true 1; mkResult "code" false 2] = Ret st
              /\ Dict.keys (run_stats st) = ["math"; "code"])
  /\ (exists st, accumulate [mkResult "code" false 2; mkResult "math" true 1] = Ret st
                 /\ Dict.keys (run_stats st) = ["code"; "math"]).
Proof. split; eexists; split; reflexivity. Qed.

(** ** Reports *)

Section ReportFacts.
Variable json_loads : string -> py Json.value.

Lemma percent_positive (a b : nat) :
  1 <= b -> percent a b = Ret (FRound (FMul (FDiv a b) 100) 2).
Proof.
  intros Hb. unfold percent, truediv.
  destruct b as [|b]; [lia | reflexivity].
Qed.

Lemma all_counted_bump_entry (cat : string) (b : bool) (d : Dict.t Stats.t) :
  all_counted d -> all_counted (bump_entry cat b d).
Proof.
  unfold all_counted. induction d as [|[k s] d IH]; intros H; cbn [bump_entry].
  - constructor; [destruct b; cbn; lia | constructor].
  - inversion H as [|? ? Hs Hd]; subst.
    destruct (String.eqb cat k).
    + constructor; [destruct b; cbn; lia | exact Hd].
    + constructor; [exact Hs | now apply IH].
Qed.

Lemma all_counted_bump_all (rs : list EvalResult) (d : Dict.t Stats.t) :
  all_counted d -> all_counted (bump_all d rs).
Proof.
  revert d; induction rs as [|r rs IH]; intros d H; [exact H|].
  cbn [bump_all fold_left]. apply IH. now apply all_counted_bump_entry.
Qed.

Lemma per_category_counted (stats : Dict.t Stats.t) :
  all_counted stats -> per_category stats = Ret (per_category_report stats).
Proof.
  unfold all_counted, per_category_report.
  induction stats as [|[cat s] stats IH]; intros H; [reflexivity|].
  inversion H as [|? ? Hs Hd]; subst. cbn [snd fst] in Hs.
  cbn [per_category map fst snd].
  destruct (Nat.eqb (Stats.total s) 0) eqn:E; [apply Nat.eqb_eq in E; lia|].
  rewrite (percent_positive _ _ Hs). cbn [bind]. rewrite (IH Hd). reflexivity.
Qed.

Lemma runner_per_category_counted (cats : Dict.t Stats.t) :
  all_counted cats -> runner_per_category cats = Ret (per_category_report cats).
Proof.
  unfold all_counted, per_category_report.
  induction cats as [|[k v] cats IH]; intros H; [reflexivity|].
  inversion H as [|? ? Hs Hd]; subst. cbn [snd fst] in Hs.
  cbn [runner_per_category map fst snd].
  rewrite (percent_positive _ _ Hs). cbn [bind]. rewrite (IH Hd). reflexivity.
Qed.

Lemma runner_loop_bump_all (rows : list Row) (results : list EvalResult) :
  Forall2 (fun row res =>
             evaluate_row json_loads (prompt row) (output row) = Ret res)
          rows results ->
  forall cats, runner_loop json_loads cats rows = Ret (bump_all cats results).
Proof.
  induction 1 as [| row res rows results Hres _ IH]; intros cats; [reflexivity|].
  cbn [runner_loop]. rewrite Hres. cbn [bind].
  rewrite count_category_bump. cbn [bind]. now rewrite IH.
Qed.

End ReportFacts.

(** C8, as the specification states it, fails for the file that
    [model_runner_baseline.py] writes under the same name: its fields are
    [overall_accuracy] and [per_category] only. *)
Lemma runner_report_fields :
  exists report,
    cat_summary Json.loads (FRound (FMul (FDiv 1 1) 100) 2)
                [mkRow "Solve for x" "42"] = Ret report
    /\ fields report = ["overall_accuracy"; "per_category"]
    /\ fields report
       <> ["file"; "total"; "correct"; "accuracy_percent"; "per_category"].
Proof.
  eexists. split; [reflexivity|]. split; [reflexivity | discriminate].
Qed.

(** C8, amended.  For a run with at least one row, the report that [main]
    of [correctness_checkers.py] dumps has exactly the fields [file] (the
    base name of the CSV path), [total], [correct], [accuracy_percent]
    (computed as [round(correct / total * 100, 2)]) and [per_category],
    which maps every observed category to its [accuracy_percent], [correct]
    and [total]; the report of [model_runner_baseline.py] has the fields
    [overall_accuracy] and [per_category], the latter built the same way. *)
Theorem structured_report :
  forall json_loads csv_path rows,
    rows <> [] ->
    exists results st report,
      Forall2 (fun row res =>
                 evaluate_row json_loads (prompt row) (output row) = Ret res)
              rows results
      /\ accumulate results = Ret st
      /\ main json_loads csv_path rows = Ret (Some report)
      /\ report
         = PDict [("file", PStr (basename csv_path));
                  ("total", PInt (run_total st));
                  ("correct", PInt (run_correct st));
                  ("accuracy_percent",
                   PFloat (FRound (FMul (FDiv (run_correct st) (run_total st))
                                        100) 2));
                  ("per_category", PDict (per_category_report (run_stats st)))]
      /\ fields report
         = ["file"; "total"; "correct"; "accuracy_percent"; "per_category"]
      /\ (forall c, In c (map fst (per_category_report (run_stats st)))
                    <-> In c (map category results))
      /\ (forall accuracy_percent,
             cat_summary json_loads accuracy_percent rows
             = Ret (PDict [("overall_accuracy", PFloat accuracy_percent);
                           ("per_category",
                            PDict (per_category_report (run_stats st)))])).
Proof.
  intros json_loads csv_path rows Hrows.
  destruct (main_loop_tally_all json_loads rows
              (mkCounters (List.length rows) 0 [])) as [results [HF Hm]].
  assert (Hlen : List.length rows = List.length results).
  { exact (Forall2_length HF). }
  assert (Hcounted : all_counted (bump_all [] results)).
  { apply all_counted_bump_all. constructor. }
  exists results. do 2 eexists.
  split; [exact HF|]. split; [apply accumulate_bump|].
  cbn [run_total run_correct run_stats].
  split; [| split; [reflexivity | split; [| split]]].
  - unfold main. destruct rows as [|row rows]; [contradiction|].
    rewrite Hm, tally_all_bump. cbn [bind run_total run_correct run_stats].
    rewrite percent_positive by (cbn [List.length]; lia). cbn [bind].
    rewrite (per_category_counted _ Hcounted). cbn [bind].
    rewrite Hlen, Nat.add_0_l. reflexivity.
  - reflexivity.
  - intros c. unfold per_category_report. rewrite map_map. cbn [fst].
    destruct (keys_bump_all results []) as [_ Hi].
    unfold Dict.keys in Hi. rewrite Hi. cbn [map In]. intuition.
  - intros accuracy_percent. unfold cat_summary.
    rewrite (runner_loop_bump_all json_loads rows results HF). cbn [bind].
    rewrite (runner_per_category_counted _ Hcounted). reflexivity.
Qed.

Lemma structured_report_witness :
  exists report,
    main Json.loads "results/run1/outputs.csv"
         [mkRow "What is the derivative of x^2?" "2x";
          mkRow "Write a poem about the sea"
                "one two three four five six seven eight nine ten eleven."]
    = Ret (Some report)
    /\ fields report
       = ["file"; "total"; "correct"; "accuracy_percent"; "per_category"].
Proof.
  destruct (structured_report Json.loads "results/run1/outputs.csv"
              [mkRow "What is the derivative of x^2?" "2x";
               mkRow "Write a poem about the sea"
                     "one two three four five six seven eight nine ten eleven."])
    as [results [st [report [_ [_ [Hmain [_ [Hfields _]]]]]]]].
  - discriminate.
  - exists report. split; [exact Hmain | exact Hfields].
Defined.

(** The end-to-end scenario of the specification. *)
Example end_to_end :
  main Json.loads "results/run1/outputs.csv"
       [mkRow "What is the derivative of x^2?" "2x";
        mkRow "Write a poem about the sea"
              "one two three four five six seven eight nine ten eleven."]
  = Ret (Some (PDict
      [("file", PStr "outputs.csv"); ("total", PInt 2); ("correct", PInt 2);
       ("accuracy_percent", PFloat (FRound (FMul (FDiv 2 2) 100) 2));
       ("per_category",
        PDict [("math", category_report (Stats.mk 1 1));
               ("writing", category_report (Stats.mk 1 1))])])).
Proof. reflexivity. Qed.


(** * Further properties *)

(** ** More on strings *)

Section MoreStringFacts.
Import Str.

Lemma append_assoc (a b c : string) : ((a ++ b) ++ c = a ++ b ++ c)%string.
Proof. induction a as [|x a IH]; simpl; [reflexivity | now rewrite IH]. Qed.

Lemma append_nil_r (a : string) : (a ++ "" = a)%string.
Proof. induction a as [|x a IH]; simpl; [reflexivity | now rewrite IH]. Qed.

Lemma length_append (a b : string) :
  String.length (a ++ b) = String.length a + String.length b.
Proof. induction a as [|x a IH]; simpl; [reflexivity | now rewrite IH]. Qed.

Lemma any_char_append (f : ascii -> bool) (a b : string) :
  any_char f (a ++ b) = any_char f a || any_char f b.
Proof.
  induction a as [|x a IH]; simpl; [reflexivity|].
  now rewrite IH, orb_assoc.
Qed.

(** What [rstrip] returns does not end with white space. *)
Lemma rstrip_last (s a : string) (c : ascii) :
  rstrip s = (a ++ String c "")%string -> isspace c = false.
Proof.
  revert a; induction s as [|d s IH]; intros a; cbn [rstrip].
  - destruct a; discriminate.
  - destruct (rstrip s) as [|e r] eqn:Er.
    + destruct (isspace d) eqn:Ed.
      * destruct a; discriminate.
      * destruct a as [|x a]; simpl; intros H.
        -- injection H as <-. exact Ed.
        -- injection H as _ H. destruct a; discriminate.
    + destruct a as [|x a]; simpl; intros H; [discriminate|].
      injection H as _ H. exact (IH a H).
Qed.

Lemma strip_last (s a : string) (c : ascii) :
  strip s = (a ++ String c "")%string -> isspace c = false.
Proof. apply rstrip_last. Qed.

Lemma isspace_lower_char (c : ascii) : isspace (lower_char c) = isspace c.
Proof. destruct c as [[] [] [] [] [] [] [] []]; reflexivity. Qed.

Lemma lower_char_idem (c : ascii) : lower_char (lower_char c) = lower_char c.
Proof. destruct c as [[] [] [] [] [] [] [] []]; reflexivity. Qed.

Lemma lower_append (a b : string) : lower (a ++ b) = (lower a ++ lower b)%string.
Proof. induction a as [|x a IH]; simpl; [reflexivity | now rewrite IH]. Qed.

Lemma lower_idem (s : string) : lower (lower s) = lower s.
Proof.
  induction s as [|c s IH]; simpl; [reflexivity|].
  now rewrite lower_char_idem, IH.
Qed.

Lemma flush_lower (w : string) (l : list string) :
  flush (lower w) (map lower l) = map lower (flush w l).
Proof. destruct w; reflexivity. Qed.

(** Lower-casing a text lower-cases its words. *)
Lemma split_from_lower (s w : string) :
  split_from (lower w) (lower s) = map lower (split_from w s).
Proof.
  revert w; induction s as [|c s IH]; intros w; cbn [lower split_from].
  - apply (flush_lower w []).
  - rewrite isspace_lower_char. destruct (isspace c).
    + rewrite <- flush_lower. f_equal. exact (IH ""%string).
    + rewrite <- IH, lower_append. reflexivity.
Qed.

Lemma split_lower (s : string) : split (lower s) = map lower (split s).
Proof. exact (split_from_lower s ""%string). Qed.

Lemma lower_lstrip (s : string) : lower (lstrip s) = lstrip (lower s).
Proof.
  induction s as [|c s IH]; cbn [lower lstrip]; [reflexivity|].
  rewrite isspace_lower_char. now destruct (isspace c).
Qed.

Lemma lower_rstrip (s : string) : lower (rstrip s) = rstrip (lower s).
Proof.
  induction s as [|c s IH]; cbn [lower rstrip]; [reflexivity|].
  rewrite <- IH, isspace_lower_char.
  destruct (rstrip s); cbn [lower]; [now destruct (isspace c) | reflexivity].
Qed.

Lemma lower_strip (s : string) : lower (strip s) = strip (lower s).
Proof. unfold strip. now rewrite lower_rstrip, lower_lstrip. Qed.

Lemma lstrip_rstrip_head (s : string) :
  lstrip (rstrip (lstrip s)) = rstrip (lstrip s).
Proof.
  destruct (lstrip_head s) as [-> | [c [r [-> Hc]]]]; [reflexivity|].
  rewrite (rstrip_cons _ _ Hc). cbn [lstrip]. now rewrite Hc.
Qed.

Lemma rstrip_idem (s : string) : rstrip (rstrip s) = rstrip s.
Proof.
  induction s as [|c s IH]; cbn [rstrip]; [reflexivity|].
  destruct (rstrip s) as [|d r] eqn:Er.
  - destruct (isspace c) eqn:Ec; cbn [rstrip]; [reflexivity | now rewrite Ec].
  - cbn [rstrip] in *. now rewrite IH.
Qed.

Lemma strip_idem (s : string) : strip (strip s) = strip s.
Proof. unfold strip. now rewrite lstrip_rstrip_head, rstrip_idem. Qed.

Lemma out_lower_idem (o : string) : out_lower (out_lower o) = out_lower o.
Proof.
  unfold out_lower. now rewrite lower_strip, lower_idem, strip_idem.
Qed.

End MoreStringFacts.

(** ** More on one prompt-output pair *)

Section MoreRowFacts.
Import Str.

Lemma Substring_char (c : ascii) (s : string) :
  Substring (String c "") s <-> HasChar (eq c) s.
Proof.
  unfold Substring, HasChar. split.
  - intros [a [b H]]. exists a, c, b. split; [exact H | reflexivity].
  - intros [a [d [b [H <-]]]]. exists a, b. exact H.
Qed.

Lemma Substring_second (c d : ascii) (s : string) :
  Substring (String c (String d "")) s -> HasChar (eq d) s.
Proof.
  intros [a [b H]]. exists (a ++ String c "")%string, d, b.
  split; [| reflexivity]. rewrite append_assoc. exact H.
Qed.

Lemma math_tokens_chars (s : string) :
  (exists sym, In sym ["x"; "y"; "="; "dx"; "dy"; "6x"; "2x"] /\ Substring sym s)
  \/ HasChar MathChar s
  <-> HasChar MathAnswerChar s.
Proof.
  assert (Hmono : forall (P : ascii -> Prop),
             (forall c, P c -> MathAnswerChar c) ->
             HasChar P s -> HasChar MathAnswerChar s).
  { intros P HP [a [c [b [E Hc]]]]. exists a, c, b. split; auto. }
  split.
  - intros [[sym [Hin Hs]] | H].
    + cbn [In] in Hin.
      destruct Hin as [<-|[<-|[<-|[<-|[<-|[<-|[<-|[]]]]]]]].
      * apply Substring_char in Hs. revert Hs. apply Hmono.
        intros c <-. left. reflexivity.
      * apply Substring_char in Hs. revert Hs. apply Hmono.
        intros c <-. right. left. reflexivity.
      * apply Substring_char in Hs. revert Hs. apply Hmono.
        intros c <-. right. right. right. cbn [In]. auto 6.
      * apply Substring_second in Hs. revert Hs. apply Hmono.
        intros c <-. left. reflexivity.
      * apply Substring_second in Hs. revert Hs. apply Hmono.
        intros c <-. right. left. reflexivity.
      * apply Substring_second in Hs. revert Hs. apply Hmono.
        intros c <-. left. reflexivity.
      * apply Substring_second in Hs. revert Hs. apply Hmono.
        intros c <-. left. reflexivity.
    + revert H. apply Hmono. intros c Hc. right. right. exact Hc.
  - intros [a [c [b [E [-> | [-> | Hc]]]]]].
    + left. exists "x". split; [cbn [In]; auto|]. exists a, b. exact E.
    + left. exists "y". split; [cbn [In]; auto|]. exists a, b. exact E.
    + right. exists a, c, b. auto.
Qed.

End MoreRowFacts.

(** X1.  For a prompt of category code, the verdict is true exactly when
    the lower-cased, trimmed output contains [return], or contains [def],
    [for] or [while] followed by a blank and at least one more character:
    the blank of a mark is never the end of the trimmed output. *)
Theorem code_verdict :
  forall json_loads p o,
    classify_spec p = "code" ->
    exists r, evaluate_row json_loads p o = Ret r
              /\ category r = "code"
              /\ (correct r = true <->
                  Substring "return" (out_lower o)
                  \/ exists k a c b,
                       In k ["def"; "for"; "while"]
                       /\ out_lower o = (a ++ k ++ " " ++ String c b)%string).
Proof.
  intros json_loads p o Hp. rewrite (eval_code json_loads p o Hp).
  eexists; split; [reflexivity|]. split; [reflexivity|]. cbn [correct].
  rewrite existsb_exists.
  assert (Hend : forall a k, out_lower o <> ((a ++ k) ++ " ")%string).
  { intros a k H. apply strip_last in H. discriminate H. }
  split.
  - intros [k [Hin Hk]]. apply contains_Substring in Hk.
    destruct Hk as [a [b Hk]]. cbn [In] in Hin.
    destruct Hin as [<-|[<-|[<-|[<-|[]]]]].
    + right. destruct b as [|c b].
      * exfalso. apply (Hend a "def"). rewrite append_assoc. exact Hk.
      * exists "def", a, c, b. split; [cbn [In]; auto | exact Hk].
    + left. exists a, b. exact Hk.
    + right. destruct b as [|c b].
      * exfalso. apply (Hend a "for"). rewrite append_assoc. exact Hk.
      * exists "for", a, c, b. split; [cbn [In]; auto | exact Hk].
    + right. destruct b as [|c b].
      * exfalso. apply (Hend a "while"). rewrite append_assoc. exact Hk.
      * exists "while", a, c, b. split; [cbn [In]; auto | exact Hk].
  - intros [[a [b H]] | [k [a [c [b [Hin H]]]]]].
    + exists "return". split; [cbn [In]; auto|].
      apply contains_Substring. exists a, b. exact H.
    + cbn [In] in Hin. destruct Hin as [<-|[<-|[<-|[]]]].
      * exists "def ". split; [cbn [In]; auto|].
        apply contains_Substring. exists a, (String c b). exact H.
      * exists "for ". split; [cbn [In]; auto|].
        apply contains_Substring. exists a, (String c b). exact H.
      * exists "while ". split; [cbn [In]; auto|].
        apply contains_Substring. exists a, (String c b). exact H.
Qed.

Lemma code_verdict_witness :
  exists r, evaluate_row Json.loads "Write python code" " DEF f(): pass" = Ret r
            /\ category r = "code"
            /\ (correct r = true <->
                Substring "return" (out_lower " DEF f(): pass")
                \/ exists k a c b,
                     In k ["def"; "for"; "while"]
                     /\ out_lower " DEF f(): pass"
                        = (a ++ k ++ " " ++ String c b)%string).
Proof.
  apply (code_verdict Json.loads "Write python code" " DEF f(): pass").
  reflexivity.
Defined.

(** X2.  For a prompt of category math, the seven tokens and the character
    class come to one test: the verdict is true exactly when the
    lower-cased, trimmed output has a character among x, y, the digits and
    [+ - * / =]. *)
Theorem math_verdict_chars :
  forall json_loads p o,
    classify_spec p = "math" ->
    exists r, evaluate_row json_loads p o = Ret r
              /\ (correct r = true <-> HasChar MathAnswerChar (out_lower o)).
Proof.
  intros json_loads p o Hp. rewrite (eval_math json_loads p o Hp).
  eexists; split; [reflexivity|]. cbn [correct].
  rewrite <- math_tokens_chars.
  rewrite orb_true_iff, is_math_expression_HasChar, existsb_exists.
  split; (intros [[sym [Hin Hs]] | H]; [left | now right]);
    exists sym; split; auto; now apply contains_Substring.
Qed.

Lemma math_verdict_chars_witness :
  exists r, evaluate_row Json.loads "Solve it" "No idea" = Ret r
            /\ (correct r = true <-> HasChar MathAnswerChar (out_lower "No idea")).
Proof.
  apply (math_verdict_chars Json.loads "Solve it" "No idea"). reflexivity.
Defined.

(** X3.  Whatever the category, [output_len] is the number of
    whitespace-delimited words of the output as it was given: neither the
    lower-casing nor the trimming changes it. *)
Theorem output_len_word_count :
  forall json_loads p o,
    exists r, evaluate_row json_loads p o = Ret r
              /\ output_len r = List.length (Str.split o).
Proof.
  intros json_loads p o.
  assert (Hlen : List.length (Str.split (out_lower o)) = List.length (Str.split o)).
  { unfold out_lower. now rewrite split_strip, split_lower, length_map. }
  destruct (classify_spec_labels p) as [H|[H|[H|[H|[H|[]]]]]]; symmetry in H.
  - rewrite (eval_math json_loads p o H). eexists; split; [reflexivity | exact Hlen].
  - rewrite (eval_code json_loads p o H). eexists; split; [reflexivity | exact Hlen].
  - rewrite (eval_json json_loads p o H). eexists; split; [reflexivity | exact Hlen].
  - rewrite (eval_writing json_loads p o H). eexists; split; [reflexivity | exact Hlen].
  - rewrite (eval_general json_loads p o H). eexists; split; [reflexivity | exact Hlen].
Qed.

Section InsensitivityFacts.
Import Str.

Lemma classify_spec_lower (p1 p2 : string) :
  lower p1 = lower p2 -> classify_spec p1 = classify_spec p2.
Proof. unfold classify_spec. now intros ->. Qed.

Lemma lstrip_blank_contains (k : string) (c : ascii) (s : string) :
  isspace c = false -> lstrip s = ""%string -> contains (String c k) s = false.
Proof.
  intros Hc. induction s as [|d s IH]; cbn [lstrip contains prefix].
  - reflexivity.
  - destruct (isspace d) eqn:Ed; [|discriminate].
    intros H. destruct (ascii_dec c d) as [->|_]; [congruence|].
    exact (IH H).
Qed.

Lemma lstrip_blank_split (s : string) : lstrip s = ""%string -> split s = [].
Proof.
  unfold split. induction s as [|d s IH]; cbn [lstrip split_from]; [reflexivity|].
  destruct (isspace d); [exact IH | discriminate].
Qed.

Lemma strip_blank_lstrip (s : string) : strip s = ""%string -> lstrip s = ""%string.
Proof.
  unfold strip. destruct (lstrip_head s) as [-> | [c [r [-> Hc]]]]; [reflexivity|].
  rewrite (rstrip_cons _ _ Hc). discriminate.
Qed.

End InsensitivityFacts.

(** X4.  Outside the json category, [evaluate_row] looks at the prompt
    lower-cased and at the output lower-cased and trimmed, and at nothing
    else: two pairs that agree on these get the same result, and a pair
    gets the result of its own normal form.  In the json category the case
    of the output matters. *)
Theorem evaluate_row_case_insensitive :
  (forall json_loads p1 p2 o1 o2,
      Str.lower p1 = Str.lower p2 ->
      out_lower o1 = out_lower o2 ->
      classify_spec p1 <> "json" ->
      evaluate_row json_loads p1 o1 = evaluate_row json_loads p2 o2)
  /\ (forall json_loads p o,
         classify_spec p <> "json" ->
         evaluate_row json_loads (Str.lower p) (out_lower o)
         = evaluate_row json_loads p o)
  /\ (out_lower "[TRUE]" = out_lower "[true]"
      /\ evaluate_row Json.loads "json" "[TRUE]" = Ret (mkResult "json" false 1)
      /\ evaluate_row Json.loads "json" "[true]" = Ret (mkResult "json" true 1)).
Proof.
  assert (H1 : forall json_loads p1 p2 o1 o2,
             Str.lower p1 = Str.lower p2 ->
             out_lower o1 = out_lower o2 ->
             classify_spec p1 <> "json" ->
             evaluate_row json_loads p1 o1 = evaluate_row json_loads p2 o2).
  { intros json_loads p1 p2 o1 o2 Hp Ho Hj.
    pose proof (classify_spec_lower p1 p2 Hp) as Hc.
    destruct (classify_spec_labels p1) as [H|[H|[H|[H|[H|[]]]]]]; symmetry in H.
    - rewrite (eval_math json_loads p1 o1 H), (eval_math json_loads p2 o2);
        [now rewrite Ho | congruence].
    - rewrite (eval_code json_loads p1 o1 H), (eval_code json_loads p2 o2);
        [now rewrite Ho | congruence].
    - contradiction.
    - rewrite (eval_writing json_loads p1 o1 H), (eval_writing json_loads p2 o2);
        [now rewrite Ho | congruence].
    - rewrite (eval_general json_loads p1 o1 H), (eval_general json_loads p2 o2);
        [now rewrite Ho, Hp | congruence]. }
  split; [exact H1 | split].
  - intros json_loads p o Hj. apply H1.
    + apply lower_idem.
    + apply out_lower_idem.
    + rewrite (classify_spec_lower (Str.lower p) p (lower_idem p)). exact Hj.
  - repeat split; reflexivity.
Qed.

Lemma evaluate_row_case_insensitive_witness :
  evaluate_row Json.loads "SOLVE THIS" "  The Answer Is X  "
  = evaluate_row Json.loads "solve this" "the answer is x"
  /\ evaluate_row Json.loads (Str.lower "Tell a Story") (out_lower " Once. ")
     = evaluate_row Json.loads "Tell a Story" " Once. ".
Proof.
  split.
  - apply (proj1 evaluate_row_case_insensitive Json.loads
             "SOLVE THIS" "solve this" "  The Answer Is X  " "the answer is x").
    + reflexivity.
    + reflexivity.
    + vm_compute. discriminate.
  - apply (proj1 (proj2 evaluate_row_case_insensitive) Json.loads
             "Tell a Story" " Once. ").
    vm_compute. discriminate.
Defined.

(** X5.  A prompt that is empty or made of white space only is of category
    general, and no output is judged correct for it: there is no prompt word
    for the output to contain. *)
Theorem blank_prompt_incorrect :
  forall json_loads p o,
    Str.strip p = ""%string ->
    evaluate_row json_loads p o
    = Ret (mkResult "general" false (List.length (Str.split o))).
Proof.
  intros json_loads p o Hp.
  assert (Hl : Str.lstrip (Str.lower p) = ""%string).
  { rewrite <- lower_lstrip, (strip_blank_lstrip p Hp). reflexivity. }
  assert (Hk : forall k c, Str.isspace c = false ->
                           Str.contains (String c k) (Str.lower p) = false).
  { intros k c Hc. now apply lstrip_blank_contains. }
  assert (Hg : classify_spec p = "general").
  { rewrite classify_spec_unfold. cbv zeta.
    rewrite !Hk by reflexivity. reflexivity. }
  rewrite (eval_general json_loads p o Hg).
  rewrite (lstrip_blank_split _ Hl). cbn [firstn existsb].
  rewrite andb_false_r. do 2 f_equal.
  unfold out_lower. now rewrite split_strip, split_lower, length_map.
Qed.

Lemma blank_prompt_incorrect_witness :
  evaluate_row Json.loads "   " "any answer at all"
  = Ret (mkResult "general" false (List.length (Str.split "any answer at all"))).
Proof.
  apply (blank_prompt_incorrect Json.loads "   " "any answer at all").
  reflexivity.
Defined.

(** ** What the json verdict accepts *)

Section ContainerFacts.
Import Str Json.

Lemma parse_array_container (pc : string -> py value) (fuel : nat) :
  forall s acc v r,
    parse_array pc fuel s acc = Ret (v, r) -> is_container v = true.
Proof.
  induction fuel as [|fuel IH]; intros s acc v r; cbn [parse_array]; [discriminate|].
  destruct (scan_once pc fuel s) as [[v0 r0]|]; cbn [bind]; [|discriminate].
  destruct (skip_ws r0) as [|c r1]; [discriminate|].
  destruct (Ascii.eqb c "]").
  - intros H; injection H as <- _; reflexivity.
  - destruct (Ascii.eqb c ","); [apply IH | discriminate].
Qed.

Lemma parse_object_container (pc : string -> py value) (fuel : nat) :
  forall s acc v r,
    parse_object pc fuel s acc = Ret (v, r) -> is_container v = true.
Proof.
  induction fuel as [|fuel IH]; intros s acc v r; cbn [parse_object]; [discriminate|].
  destruct (scanstring s []) as [[key r0]|]; cbn [bind]; [|discriminate].
  destruct (skip_ws r0) as [|c r1]; [discriminate|].
  destruct (Ascii.eqb c ":"); [|discriminate].
  destruct (scan_once pc fuel (skip_ws r1)) as [[v0 r2]|]; cbn [bind]; [|discriminate].
  destruct (skip_ws r2) as [|c2 r3]; [discriminate|].
  destruct (Ascii.eqb c2 "}").
  - intros H; injection H as <- _; reflexivity.
  - destruct (Ascii.eqb c2 ","); [|discriminate].
    destruct (skip_ws r3) as [|c3 r4]; [discriminate|].
    destruct (Ascii.eqb c3 dquote); [apply IH | discriminate].
Qed.

Ltac open_case H :=
  match type of H with
  | context [match ?x with _ => _ end] =>
      match x with
      | context [match _ with _ => _ end] => fail 1
      | _ => destruct x eqn:?; try discriminate H
      end
  end.

Lemma scan_atom_scalar (s : string) (v : value) (r : string) :
  scan_atom default_constant s = Ret (v, r) -> is_container v = false.
Proof.
  unfold scan_atom, constant, default_constant, match_number, bind.
  intros H. repeat open_case H; inversion H; subst; reflexivity.
Qed.

(** The value [scan_once] returns is a container exactly when the text
    starts with a brace or a bracket. *)
Lemma scan_once_kind (fuel : nat) (s : string) (v : value) (r : string) :
  scan_once default_constant fuel s = Ret (v, r) ->
  is_container v = true <-> (StartsWith "{" s \/ StartsWith "[" s).
Proof.
  destruct fuel as [|fuel]; [discriminate|]. cbn [scan_once].
  destruct s as [|c s']; [discriminate|].
  destruct (Ascii.eqb c dquote) eqn:Eq.
  { apply Ascii.eqb_eq in Eq. subst c.
    destruct (scanstring s' []) as [[str r0]|]; cbn [bind]; [|discriminate].
    intros H; injection H as <- _. cbn [is_container].
    split; [discriminate|]. intros [[x Hx] | [x Hx]]; discriminate Hx. }
  destruct (Ascii.eqb c "{") eqn:Eb.
  { apply Ascii.eqb_eq in Eb. subst c. intros H.
    split; [intros _; left; eexists; reflexivity | intros _].
    destruct (skip_ws s') as [|c1 r1]; [discriminate H|].
    destruct (Ascii.eqb c1 "}"); [injection H as <- _; reflexivity|].
    destruct (Ascii.eqb c1 dquote); [|discriminate H].
    exact (parse_object_container _ _ _ _ _ _ H). }
  destruct (Ascii.eqb c "[") eqn:Ek.
  { apply Ascii.eqb_eq in Ek. subst c. intros H.
    split; [intros _; right; eexists; reflexivity | intros _].
    destruct (skip_ws s') as [|c1 r1]; [discriminate H|].
    destruct (Ascii.eqb c1 "]"); [injection H as <- _; reflexivity|].
    exact (parse_array_container _ _ _ _ _ _ H). }
  intros H. apply scan_atom_scalar in H. rewrite H.
  apply Ascii.eqb_neq in Eb, Ek.
  split; [discriminate|].
  intros [[x Hx] | [x Hx]]; injection Hx as Hx _; congruence.
Qed.

Lemma skip_ws_StartsWith (c : ascii) (s : string) :
  isspace c = false ->
  StartsWith c (skip_ws s) -> StartsWith c (lstrip s).
Proof.
  intros Hc [x Hx].
  destruct (skip_ws_lstrip s) as [<- | [d [r [Hd [Hs _]]]]].
  - exists x. exact Hx.
  - rewrite Hd in Hx. injection Hx as -> _. congruence.
Qed.

(** [json.loads] returns a container exactly on the texts that
    [looks_like_json] lets through, among those it reads. *)
Lemma loads_kind (s : string) (v : value) :
  loads s = Ret v -> is_container v = looks_like_json s.
Proof.
  unfold loads, decode.
  destruct (scan_once default_constant (fuel_for s) (skip_ws s))
    as [[v0 r0]|] eqn:E; cbn [bind]; [|discriminate].
  destruct (skip_ws r0); [|discriminate]. intros H; injection H as <-.
  pose proof (scan_once_kind _ _ _ _ E) as Hk.
  destruct (looks_like_json s) eqn:El.
  - apply looks_like_json_StartsWith in El. rewrite !strip_StartsWith in El.
    apply Hk.
    destruct (skip_ws_lstrip s) as [Heq | [c [r [Heq [Hc Hw]]]]].
    + now rewrite Heq.
    + rewrite Heq in E.
      destruct (scan_once_space default_constant (fuel_for s) c r Hc Hw) as [e He].
      congruence.
  - destruct (is_container v0) eqn:Ec; [|reflexivity].
    assert (Hs : StartsWith "{" (skip_ws s) \/ StartsWith "[" (skip_ws s))
      by (now apply Hk).
    assert (Hl : looks_like_json s = true).
    { apply looks_like_json_StartsWith. rewrite !strip_StartsWith.
      destruct Hs as [Hs | Hs]; [left | right];
        (apply skip_ws_StartsWith; [reflexivity | exact Hs]). }
    congruence.
Qed.

End ContainerFacts.

(** X6.  For a prompt of category json, the verdict is true exactly when
    [json.loads] reads the output and returns a list or a dictionary: an
    output that is a valid number, string, [true], [false] or [null] is
    judged incorrect. *)
Theorem json_verdict_container :
  forall p o,
    classify_spec p = "json" ->
    exists r, evaluate_row Json.loads p o = Ret r
              /\ (correct r = true <->
                  exists v, Json.loads o = Ret v /\ is_container v = true).
Proof.
  intros p o Hp. rewrite (eval_json Json.loads p o Hp).
  eexists; split; [reflexivity|]. cbn [correct].
  destruct (Json.loads o) as [v|e] eqn:Ev.
  - pose proof (loads_kind o v Ev) as Hk. rewrite <- Hk.
    destruct (is_container v) eqn:Ec.
    + destruct v; try discriminate Ec; cbn [is_not_None]; split; eauto.
    + split; [discriminate|]. intros [v' [Hv' Hc']].
      injection Hv' as <-. congruence.
  - split.
    + destruct (looks_like_json o); discriminate.
    + intros [v [Hv _]]. discriminate Hv.
Qed.

Lemma json_verdict_container_witness :
  exists r, evaluate_row Json.loads "Give me a JSON value" " 42 " = Ret r
            /\ (correct r = true <->
                exists v, Json.loads " 42 " = Ret v /\ is_container v = true).
Proof.
  apply (json_verdict_container "Give me a JSON value" " 42 "). reflexivity.
Defined.

(** ** More on the counting loop and the reports *)

Section MoreCountingFacts.
Variable json_loads : string -> py Json.value.

Lemma Evaluated_exists (rows : list Row) :
  exists results, Evaluated json_loads rows results.
Proof.
  induction rows as [|row rows [results IH]].
  - exists []. constructor.
  - destruct (eval_category json_loads (prompt row) (output row)) as [res [Hres _]].
    exists (res :: results). now constructor.
Qed.

Lemma main_loop_results (rows : list Row) (results : list EvalResult) :
  Evaluated json_loads rows results ->
  forall st, main_loop json_loads st rows = tally_all st results.
Proof.
  induction 1 as [| row res rows results Hres _ IH]; intros st; [reflexivity|].
  cbn [main_loop tally_all]. rewrite Hres. cbn [bind].
  unfold tally at 1 2. rewrite count_category_bump. cbn [bind]. apply IH.
Qed.

Lemma count_correct_le (results : list EvalResult) :
  count_correct results <= List.length results.
Proof.
  unfold count_correct. induction results as [|r rs IH]; cbn [filter List.length].
  - lia.
  - destruct (correct r); cbn [List.length]; lia.
Qed.

Lemma occ_correct_le (c : string) (results : list EvalResult) :
  occ_correct c results <= occ c results.
Proof.
  unfold occ_correct, occ.
  induction results as [|r rs IH]; cbn [filter List.length]; [lia|].
  destruct (String.eqb c (category r)); cbn [andb]; [|exact IH].
  destruct (correct r); cbn [List.length]; lia.
Qed.

(** The report of [main], from the results of its rows. *)
Lemma main_report (csv_path : string) (rows : list Row)
      (results : list EvalResult) :
  rows <> [] ->
  Evaluated json_loads rows results ->
  main json_loads csv_path rows
  = Ret (Some (PDict
      [("file", PStr (basename csv_path));
       ("total", PInt (List.length results));
       ("correct", PInt (count_correct results));
       ("accuracy_percent",
        PFloat (FRound (FMul (FDiv (count_correct results)
                                   (List.length results)) 100) 2));
       ("per_category", PDict (per_category_report (bump_all [] results)))])).
Proof.
  intros Hrows HF. pose proof (Forall2_length HF) as Hlen.
  unfold main. destruct rows as [|row rows]; [contradiction|].
  rewrite (main_loop_results _ _ HF), tally_all_bump.
  cbn [bind run_total run_correct run_stats].
  rewrite percent_positive by (cbn [List.length]; lia). cbn [bind].
  rewrite per_category_counted by (apply all_counted_bump_all; constructor).
  cbn [bind]. rewrite Hlen, Nat.add_0_l. reflexivity.
Qed.


Lemma filter_twice {A : Type} (f g : A -> bool) (l : list A) :
  filter f (filter g l) = filter (fun x => g x && f x) l.
Proof.
  induction l as [|x l IH]; cbn [filter]; [reflexivity|].
  destruct (g x); cbn [andb filter]; [destruct (f x); now rewrite IH | exact IH].
Qed.

Lemma add_key_first_seen (l ks : list string) :
  fold_left (fun ks c => if existsb (String.eqb c) ks then ks else (ks ++ [c])%list)
            l ks
  = (ks ++ filter (fun x => negb (existsb (String.eqb x) ks)) (first_seen l))%list.
Proof.
  revert ks; induction l as [|c l IH]; intros ks; cbn [fold_left first_seen filter].
  - now rewrite app_nil_r.
  - destruct (existsb (String.eqb c) ks) eqn:E; cbn [negb].
    + rewrite IH. f_equal. rewrite filter_twice. apply filter_ext.
      intros x. destruct (String.eqb c x) eqn:Ex; cbn [negb andb]; [|reflexivity].
      apply String.eqb_eq in Ex. subst x. now rewrite E.
    + rewrite IH, <- app_assoc. cbn [app]. do 2 f_equal.
      rewrite filter_twice. apply filter_ext.
      intros x. rewrite existsb_app. cbn [existsb].
      rewrite orb_false_r, negb_orb, (String.eqb_sym x c). apply andb_comm.
Qed.

Lemma keys_bump_all_fold (rs : list EvalResult) (d : Dict.t Stats.t) :
  Dict.keys (bump_all d rs)
  = fold_left (fun ks c => if existsb (String.eqb c) ks then ks else (ks ++ [c])%list)
              (map category rs) (Dict.keys d).
Proof.
  revert d; induction rs as [|r rs IH]; intros d; [reflexivity|].
  cbn [bump_all fold_left map].
  fold (bump_all (bump_entry (category r) (correct r) d) rs).
  now rewrite IH, keys_bump_entry.
Qed.

Lemma keys_first_seen (rs : list EvalResult) :
  Dict.keys (bump_all [] rs) = first_seen (map category rs).
Proof.
  rewrite keys_bump_all_fold, add_key_first_seen. cbn [Dict.keys map app existsb negb].
  clear. induction (first_seen (map category rs)) as [|x l IH]; cbn [filter];
    [reflexivity | now rewrite IH].
Qed.

End MoreCountingFacts.

(** X7.  After the counting loop the entry of a category is absent when no
    result has the category, and otherwise holds the number of results of
    the category as [total] and the number of correct ones among them as
    [correct], never more than [total]; the global [correct] is the number of
    correct results, never more than the global [total]. *)
Theorem category_counts :
  forall results,
    exists st, accumulate results = Ret st
               /\ run_correct st = count_correct results
               /\ run_correct st <= run_total st
               /\ (forall c,
                      Dict.get c (run_stats st)
                      = (if Nat.eqb (occ c results) 0 then None
                         else Some (Stats.mk (occ c results) (occ_correct c results)))
                      /\ occ_correct c results <= occ c results).
Proof.
  intros results. rewrite accumulate_bump. eexists. split; [reflexivity|].
  cbn [run_total run_correct run_stats].
  split; [reflexivity|]. split; [apply count_correct_le|].
  intros c. split; [| apply occ_correct_le].
  rewrite get_bump_all. reflexivity.
Qed.

(** X8.  The categories of the dictionary, and with them the entries of
    [per_category] in the report of [main], come in the order in which the
    categories first occur among the rows. *)
Theorem categories_in_order_of_first_occurrence :
  (forall results,
      exists st, accumulate results = Ret st
                 /\ Dict.keys (run_stats st) = first_seen (map category results))
  /\ (forall json_loads csv_path rows results,
         rows <> [] ->
         Evaluated json_loads rows results ->
         exists report per,
           main json_loads csv_path rows = Ret (Some report)
           /\ field "per_category" report = Some per
           /\ fields per = first_seen (map category results)).
Proof.
  split.
  - intros results. rewrite accumulate_bump. eexists. split; [reflexivity|].
    apply keys_first_seen.
  - intros json_loads csv_path rows results Hrows HE.
    rewrite (main_report json_loads csv_path rows results Hrows HE).
    do 2 eexists. split; [reflexivity|]. split; [reflexivity|].
    cbn [fields]. unfold per_category_report. rewrite map_map. cbn [fst].
    exact (keys_first_seen results).
Qed.

Lemma categories_in_order_of_first_occurrence_witness :
  exists report per,
    main Json.loads "outputs.csv"
         [mkRow "Write a poem" "x"; mkRow "Solve x" "1"; mkRow "A story" "y"]
    = Ret (Some report)
    /\ field "per_category" report = Some per
    /\ fields per
       = first_seen (map category [mkResult "writing" false 1;
                                   mkResult "math" true 1;
                                   mkResult "writing" false 1]).
Proof.
  apply (proj2 categories_in_order_of_first_occurrence Json.loads "outputs.csv"
           [mkRow "Write a poem" "x"; mkRow "Solve x" "1"; mkRow "A story" "y"]
           [mkResult "writing" false 1; mkResult "math" true 1;
            mkResult "writing" false 1]).
  - discriminate.
  - repeat constructor.
Defined.

Section CsvRowFacts.
Variable json_loads : string -> py Json.value.

Lemma evaluate_cells_of (r : Row) :
  evaluate_cells json_loads (cells_of r)
  = evaluate_row json_loads (prompt r) (output r).
Proof. reflexivity. Qed.

Lemma main_csv_loop_cells (rows : list Row) :
  forall st,
    main_csv_loop json_loads st (map cells_of rows)
    = main_loop json_loads st rows.
Proof.
  induction rows as [|r rows IH]; intros st; [reflexivity|].
  cbn [map main_csv_loop main_loop]. rewrite evaluate_cells_of.
  destruct (evaluate_row json_loads (prompt r) (output r)) as [res|e];
    cbn [bind]; [|reflexivity].
  destruct (tally st res) as [st'|e]; cbn [bind]; [apply IH | reflexivity].
Qed.

Lemma main_csv_cells (csv_path : string) (rows : list Row) :
  main_csv json_loads csv_path (map cells_of rows)
  = main json_loads csv_path rows.
Proof.
  unfold main_csv, main. destruct rows as [|r rows]; [reflexivity|].
  cbn [map]. change (cells_of r :: map cells_of rows) with (map cells_of (r :: rows)).
  now rewrite main_csv_loop_cells, length_map.
Qed.

Lemma complete_cells (rows : list CsvRow) :
  forallb is_complete rows = true -> exists rs, rows = map cells_of rs.
Proof.
  induction rows as [|[[p|] [o|]] rows IH]; cbn [forallb is_complete
    prompt_cell output_cell andb]; try discriminate.
  - intros _. exists []. reflexivity.
  - intros H. destruct (IH H) as [rs ->]. exists (mkRow p o :: rs). reflexivity.
Qed.

Lemma main_csv_loop_missing (rows : list CsvRow) :
  forallb is_complete rows = false ->
  forall st, main_csv_loop json_loads st rows = Raise AttributeError.
Proof.
  induction rows as [|r rows IH]; [discriminate|].
  cbn [forallb]. intros H st. cbn [main_csv_loop].
  destruct r as [[p|] [o|]]; cbn [is_complete prompt_cell output_cell andb] in H;
    unfold evaluate_cells; cbn [prompt_cell output_cell]; try reflexivity.
  destruct (eval_category json_loads p o) as [res [-> _]]. cbn [bind].
  unfold tally. rewrite count_category_bump. cbn [bind]. now apply IH.
Qed.

End CsvRowFacts.

(** X9.  On the rows as [csv.DictReader] gives them, a cell being [None]
    where a row is shorter than the header: when every cell is a string,
    [main] raises nothing, whatever the decoder does (the counting never
    misses a key and no percentage divides by zero), and it gives no report
    exactly when there is no row; when some row has a [None] cell, [main]
    raises [AttributeError] and gives no report.  On rows of strings the
    runner's [cat_summary], whose division has no guard, raises nothing
    either. *)
Theorem reports_raise_only_on_missing_cell :
  (forall json_loads csv_path rows,
      main_csv json_loads csv_path (map cells_of rows)
      = main json_loads csv_path rows)
  /\ (forall json_loads csv_path rows,
         forallb is_complete rows = true ->
         exists out, main_csv json_loads csv_path rows = Ret out
                     /\ (out = None <-> rows = []))
  /\ (forall json_loads csv_path rows,
         forallb is_complete rows = false ->
         main_csv json_loads csv_path rows = Raise AttributeError)
  /\ (forall json_loads accuracy_percent rows,
         exists report, cat_summary json_loads accuracy_percent rows = Ret report).
Proof.
  split; [| split; [| split]].
  - intros json_loads csv_path rows. apply main_csv_cells.
  - intros json_loads csv_path rows Hc.
    destruct (complete_cells rows Hc) as [rs ->]. rewrite main_csv_cells.
    destruct rs as [|row rs].
    + exists None. split; [reflexivity | split; reflexivity].
    + destruct (Evaluated_exists json_loads (row :: rs)) as [results HE].
      rewrite (main_report json_loads csv_path (row :: rs) results
                 ltac:(discriminate) HE).
      eexists. split; [reflexivity|]. split; discriminate.
  - intros json_loads csv_path rows Hc. unfold main_csv.
    destruct rows as [|r rows]; [discriminate Hc|].
    now rewrite (main_csv_loop_missing json_loads (r :: rows) Hc).
  - intros json_loads accuracy_percent rows.
    destruct (Evaluated_exists json_loads rows) as [results HE].
    unfold cat_summary.
    rewrite (runner_loop_bump_all json_loads rows results HE). cbn [bind].
    rewrite runner_per_category_counted
      by (apply all_counted_bump_all; constructor).
    eexists. reflexivity.
Qed.

Lemma reports_raise_only_on_missing_cell_witness :
  (exists out,
      main_csv Json.loads "outputs.csv"
               [mkCsvRow (Some "Solve x") (Some "1");
                mkCsvRow (Some "A story") (Some "")] = Ret out
      /\ (out = None <->
          [mkCsvRow (Some "Solve x") (Some "1");
           mkCsvRow (Some "A story") (Some "")] = []))
  /\ main_csv Json.loads "outputs.csv"
              [mkCsvRow (Some "Solve x") (Some "1");
               mkCsvRow (Some "A story") None] = Raise AttributeError.
Proof.
  split.
  - apply (proj1 (proj2 reports_raise_only_on_missing_cell) Json.loads
             "outputs.csv"
             [mkCsvRow (Some "Solve x") (Some "1");
              mkCsvRow (Some "A story") (Some "")]).
    reflexivity.
  - apply (proj1 (proj2 (proj2 reports_raise_only_on_missing_cell)) Json.loads
             "outputs.csv"
             [mkCsvRow (Some "Solve x") (Some "1");
              mkCsvRow (Some "A story") None]).
    reflexivity.
Defined.



(** ** Paths *)

Section PathFacts.
Import Str Path.

Lemma NoSep_any (s : string) : NoSep s <-> any_char (Ascii.eqb "/") s = false.
Proof. unfold NoSep. now rewrite contains_char. Qed.

Lemma NoSep_cons (c : ascii) (s : string) :
  NoSep (String c s) <-> Ascii.eqb c "/" = false /\ NoSep s.
Proof.
  rewrite !NoSep_any. cbn [any_char]. rewrite orb_false_iff, (Ascii.eqb_sym "/" c).
  reflexivity.
Qed.

Lemma NoSep_append (a b : string) : NoSep (a ++ b) <-> NoSep a /\ NoSep b.
Proof. rewrite !NoSep_any, any_char_append. apply orb_false_iff. Qed.

Lemma head_NoSep (n : string) : NoSep n -> head n = ""%string.
Proof.
  induction n as [|c n IH]; [reflexivity|].
  intros H. apply NoSep_cons in H as [Hc Hn].
  cbn [head]. now rewrite (IH Hn), Hc.
Qed.

Lemma head_append_NoSep (a n : string) : NoSep n -> head (a ++ n) = head a.
Proof.
  intros Hn. induction a as [|c a IH]; cbn [append head].
  - now apply head_NoSep.
  - now rewrite IH.
Qed.

Lemma head_sep (a : string) : head (a ++ "/") = (a ++ "/")%string.
Proof.
  induction a as [|c a IH]; [reflexivity|].
  cbn [append head]. rewrite IH. now destruct a.
Qed.

Lemma endswith_sep_spec (a : string) :
  endswith_sep a = true <-> exists a', a = (a' ++ "/")%string.
Proof.
  induction a as [|c a IH]; cbn [endswith_sep].
  - split; [discriminate | intros [a' H]; destruct a'; discriminate].
  - destruct a as [|d a].
    + rewrite Ascii.eqb_eq. split.
      * intros ->. exists ""%string. reflexivity.
      * intros [a' H]. destruct a' as [|x [|y a']]; simpl in H;
          [now injection H | discriminate | discriminate].
    + rewrite IH. split.
      * intros [a' H]. exists (String c a'). simpl. now rewrite H.
      * intros [a' H]. destruct a' as [|x a']; simpl in H; [discriminate|].
        injection H as _ H. eauto.
Qed.

Lemma endswith_sep_append (a b : string) :
  b <> ""%string -> endswith_sep (a ++ b) = endswith_sep b.
Proof.
  intros Hb. induction a as [|c a IH]; [reflexivity|].
  cbn [append endswith_sep]. rewrite IH.
  destruct (a ++ b)%string eqn:E; [|reflexivity].
  destruct a, b; try discriminate E. contradiction.
Qed.

Lemma rstrip_sep_fixed (a : string) :
  endswith_sep a = false -> rstrip_sep a = a.
Proof.
  induction a as [|c a IH]; [reflexivity|].
  cbn [endswith_sep rstrip_sep]. destruct a as [|d a].
  - intros ->. reflexivity.
  - intros H. rewrite (IH H). reflexivity.
Qed.

Lemma rstrip_sep_sep (a : string) : rstrip_sep (a ++ "/") = rstrip_sep a.
Proof.
  induction a as [|c a IH]; [reflexivity|].
  cbn [append rstrip_sep]. now rewrite IH.
Qed.

Lemma rstrip_sep_end (a : string) : endswith_sep (rstrip_sep a) = false.
Proof.
  induction a as [|c a IH]; [reflexivity|].
  cbn [rstrip_sep]. destruct (rstrip_sep a) as [|d r] eqn:E.
  - destruct (Ascii.eqb c "/") eqn:Ec; cbn [endswith_sep]; [reflexivity | exact Ec].
  - cbn [endswith_sep] in *. exact IH.
Qed.

Lemma all_sep_append (a b : string) : all_sep (a ++ b) = all_sep a && all_sep b.
Proof.
  induction a as [|c a IH]; [reflexivity|].
  cbn [append all_sep]. now rewrite IH, andb_assoc.
Qed.

Lemma all_sep_end (a : string) :
  a <> ""%string -> all_sep a = true -> endswith_sep a = true.
Proof.
  induction a as [|c a IH]; [contradiction|]. intros _.
  cbn [all_sep endswith_sep]. rewrite andb_true_iff. intros [Hc Ha].
  destruct a as [|d a]; [exact Hc|]. apply IH; [discriminate | exact Ha].
Qed.

Lemma all_sep_head (a : string) : all_sep a = true -> head a = a.
Proof.
  induction a as [|c a IH]; [reflexivity|].
  cbn [all_sep head]. rewrite andb_true_iff. intros [Hc Ha].
  rewrite (IH Ha), Hc. apply Ascii.eqb_eq in Hc. subst c. now destruct a.
Qed.

(** What [dirname] returns is empty, or made of separators only, or does not
    end with a separator. *)
Lemma dirname_shape (p : string) :
  dirname p = ""%string
  \/ (dirname p <> ""%string /\ all_sep (dirname p) = true)
  \/ (dirname p <> ""%string /\ endswith_sep (dirname p) = false).
Proof.
  unfold dirname. destruct (head p) as [|c h] eqn:E; [now left|].
  destruct (all_sep (String c h)) eqn:Ea.
  - right. left. split; [discriminate | exact Ea].
  - destruct (rstrip_sep (String c h)) eqn:Er; [now left|].
    right. right. split; [discriminate|].
    rewrite <- Er. apply rstrip_sep_end.
Qed.

Lemma startswith_NoSep (b : string) : NoSep b -> startswith b "/" = false.
Proof.
  unfold startswith. destruct b as [|c b]; [reflexivity|].
  intros H. apply NoSep_cons in H as [Hc _]. cbn [prefix].
  destruct (ascii_dec "/" c) as [<-|_]; [discriminate Hc | reflexivity].
Qed.

Lemma basename_from_NoSep (b acc : string) :
  NoSep b -> basename_from acc b = (acc ++ b)%string.
Proof.
  revert acc; induction b as [|c b IH]; intros acc H; cbn [basename_from].
  - now rewrite append_nil_r.
  - apply NoSep_cons in H as [Hc Hb]. rewrite Hc, (IH _ Hb), append_assoc.
    reflexivity.
Qed.

Lemma basename_from_sep (a b acc : string) :
  basename_from acc (a ++ String "/" b) = basename_from "" b.
Proof.
  revert acc; induction a as [|c a IH]; intros acc; cbn [append basename_from].
  - reflexivity.
  - destruct (Ascii.eqb c "/"); apply IH.
Qed.

Lemma basename_from_clean (p acc : string) :
  NoSep acc -> NoSep (basename_from acc p).
Proof.
  revert acc; induction p as [|c p IH]; intros acc H; cbn [basename_from].
  - exact H.
  - destruct (Ascii.eqb c "/") eqn:Ec.
    + apply IH. reflexivity.
    + apply IH. apply NoSep_append. split; [exact H|].
      apply NoSep_cons. split; [exact Ec | reflexivity].
Qed.

(** The three shapes of [join a b] for a [b] without separator. *)
Lemma join_NoSep (a b : string) :
  NoSep b ->
  (a = ""%string /\ join a b = b)
  \/ (exists a', a = (a' ++ "/")%string /\ join a b = (a' ++ String "/" b)%string)
  \/ (a <> ""%string /\ endswith_sep a = false
      /\ join a b = (a ++ String "/" b)%string).
Proof.
  intros Hb. unfold join. rewrite (startswith_NoSep b Hb).
  destruct a as [|c a]; [now left|].
  destruct (endswith_sep (String c a)) eqn:E.
  - right. left. apply endswith_sep_spec in E as [a' Ha'].
    exists a'. split; [exact Ha'|]. rewrite Ha', append_assoc. reflexivity.
  - right. right. split; [discriminate|]. split; reflexivity.
Qed.

Lemma basename_join (a b : string) : NoSep b -> basename (join a b) = b.
Proof.
  intros Hb. unfold basename.
  destruct (join_NoSep a b Hb) as [[_ ->] | [[a' [_ ->]] | [_ [_ ->]]]].
  - exact (basename_from_NoSep b "" Hb).
  - rewrite basename_from_sep. exact (basename_from_NoSep b "" Hb).
  - rewrite basename_from_sep. exact (basename_from_NoSep b "" Hb).
Qed.

Lemma dirname_join (d b : string) :
  NoSep b -> d <> ""%string -> endswith_sep d = false ->
  dirname (join d b) = d.
Proof.
  intros Hb Hd He.
  destruct (join_NoSep d b Hb) as [[H _] | [[a' [H _]] | [_ [_ ->]]]].
  - contradiction.
  - assert (endswith_sep d = true) by (apply endswith_sep_spec; eauto). congruence.
  - change (d ++ String "/" b)%string with (d ++ "/" ++ b)%string.
    rewrite <- append_assoc. unfold dirname.
    rewrite (head_append_NoSep _ _ Hb), head_sep.
    destruct (d ++ "/")%string eqn:E; [destruct d; discriminate E|].
    rewrite <- E. clear E.
    rewrite all_sep_append.
    destruct (all_sep d) eqn:Ea.
    + rewrite (all_sep_end d Hd Ea) in He. discriminate He.
    + cbn [andb]. rewrite rstrip_sep_sep. now apply rstrip_sep_fixed.
Qed.

Lemma dirname_join_dirname (p b : string) :
  NoSep b -> dirname (join (dirname p) b) = dirname p.
Proof.
  intros Hb.
  destruct (dirname_shape p) as [H | [[Hn Ha] | [Hn He]]].
  - rewrite H. unfold join. rewrite (startswith_NoSep b Hb).
    unfold dirname. now rewrite (head_NoSep b Hb).
  - pose proof (all_sep_end _ Hn Ha) as He.
    destruct (join_NoSep (dirname p) b Hb) as [[H _] | [[a' [H ->]] | [_ [He' _]]]].
    + contradiction.
    + change (a' ++ String "/" b)%string with (a' ++ "/" ++ b)%string.
      rewrite <- append_assoc, <- H. unfold dirname at 1.
      rewrite (head_append_NoSep _ _ Hb), (all_sep_head _ Ha).
      destruct (dirname p) eqn:E; [contradiction|]. now rewrite Ha.
    + congruence.
  - now apply dirname_join.
Qed.

Lemma replace_sep_clean (s : string) : NoSep (replace "/" "_" s).
Proof.
  unfold replace. induction s as [|c s IH]; [reflexivity|].
  cbn [replace_from prefix String.length Nat.sub].
  destruct (ascii_dec "/" c) as [<-|Hc].
  - destruct s; exact IH.
  - apply NoSep_cons. split; [| exact IH].
    apply Ascii.eqb_neq. congruence.
Qed.

Lemma replace_from_chars (f : ascii -> bool) (old new s : string) :
  any_char f new = false -> any_char f s = false ->
  forall k, any_char f (replace_from k old new s) = false.
Proof.
  intros Hnew. induction s as [|c s IH]; intros Hs k; [reflexivity|].
  cbn [any_char] in Hs. apply orb_false_iff in Hs as [Hc Hs].
  cbn [replace_from]. destruct k as [|k]; [| now apply IH].
  destruct (prefix old (String c s)).
  - rewrite any_char_append, Hnew. now apply IH.
  - cbn [any_char]. rewrite Hc. now apply IH.
Qed.

Lemma run_name_clean (model prompts stamp : string) :
  NoSep stamp -> NoSep (run_name model prompts stamp).
Proof.
  intros Hs. unfold run_name.
  repeat (apply NoSep_append; split); try reflexivity; try exact Hs.
  - apply replace_sep_clean.
  - apply NoSep_any. apply replace_from_chars; [reflexivity|].
    apply NoSep_any. apply basename_from_clean. reflexivity.
Qed.

Lemma run_dir_end (results_root model prompts stamp : string) :
  NoSep stamp ->
  run_dir results_root model prompts stamp <> ""%string
  /\ endswith_sep (run_dir results_root model prompts stamp) = false.
Proof.
  intros Hs. pose proof (run_name_clean model prompts stamp Hs) as Hn.
  assert (Hne : run_name model prompts stamp <> ""%string).
  { unfold run_name. destruct (replace "/" "_" model); discriminate. }
  assert (He : endswith_sep (run_name model prompts stamp) = false).
  { destruct (endswith_sep (run_name model prompts stamp)) eqn:E; [|reflexivity].
    apply endswith_sep_spec in E as [a' Ha']. rewrite Ha' in Hn.
    apply NoSep_append in Hn as [_ Hn]. discriminate Hn. }
  unfold run_dir.
  destruct (join_NoSep results_root (run_name model prompts stamp) Hn)
    as [[_ ->] | [[a' [_ ->]] | [_ [_ ->]]]].
  - split; assumption.
  - split; [destruct a'; discriminate|].
    rewrite endswith_sep_append by discriminate.
    cbn [endswith_sep]. destruct (run_name model prompts stamp); [contradiction|].
    exact He.
  - split; [destruct results_root; discriminate|].
    rewrite endswith_sep_append by discriminate.
    cbn [endswith_sep]. destruct (run_name model prompts stamp); [contradiction|].
    exact He.
Qed.

End PathFacts.

(** X11.  [main] writes its summary alongside the CSV file: the path it
    opens has the directory of the CSV path and the name
    [correctness_summary.json], whatever the CSV path is. *)
Theorem summary_alongside_csv :
  forall csv_path,
    Path.dirname (out_path csv_path) = Path.dirname csv_path
    /\ basename (out_path csv_path) = "correctness_summary.json".
Proof.
  intros csv_path. unfold out_path. split.
  - apply dirname_join_dirname. reflexivity.
  - apply basename_join. reflexivity.
Qed.

(** X12.  The name of a run has no path separator, whatever the model name
    and the prompts path are, as long as the time stamp has none: the
    separators of the model name become underscores and the prompts file
    enters by its base name.  The run directory is therefore an entry of the
    results root, named by the run. *)
Theorem run_dir_is_flat :
  forall results_root model prompts stamp,
    NoSep stamp ->
    NoSep (run_name model prompts stamp)
    /\ basename (run_dir results_root model prompts stamp)
       = run_name model prompts stamp.
Proof.
  intros results_root model prompts stamp Hs.
  pose proof (run_name_clean model prompts stamp Hs) as Hn.
  split; [exact Hn | now apply basename_join].
Qed.

Lemma run_dir_is_flat_witness :
  NoSep (run_name "org/model-1" "data/prompts.json" "20250101_120000")
  /\ basename (run_dir "results" "org/model-1" "data/prompts.json" "20250101_120000")
     = run_name "org/model-1" "data/prompts.json" "20250101_120000".
Proof.
  apply (run_dir_is_flat "results" "org/model-1" "data/prompts.json"
           "20250101_120000").
  reflexivity.
Defined.

(** X13.  Run on the [outputs.csv] of a runner's run directory,
    [correctness_checkers.py] writes its summary to the very path the runner
    wrote its own [correctness_summary.json] to: for every directory that is
    not empty and does not end with a separator, and so for every run
    directory. *)
Theorem checker_overwrites_runner_summary :
  (forall dir,
      dir <> ""%string ->
      Path.endswith_sep dir = false ->
      out_path (outputs_csv_path dir) = correctness_summary_path dir)
  /\ (forall results_root model prompts stamp,
         NoSep stamp ->
         out_path (outputs_csv_path (run_dir results_root model prompts stamp))
         = correctness_summary_path (run_dir results_root model prompts stamp)).
Proof.
  assert (H : forall dir,
             dir <> ""%string ->
             Path.endswith_sep dir = false ->
             out_path (outputs_csv_path dir) = correctness_summary_path dir).
  { intros dir Hd He. unfold out_path, outputs_csv_path, correctness_summary_path.
    rewrite dirname_join; [reflexivity | reflexivity | exact Hd | exact He]. }
  split; [exact H|].
  intros results_root model prompts stamp Hs.
  destruct (run_dir_end results_root model prompts stamp Hs) as [Hd He].
  now apply H.
Qed.

Lemma checker_overwrites_runner_summary_witness :
  out_path (outputs_csv_path "results/run_1")
  = correctness_summary_path "results/run_1"
  /\ out_path (outputs_csv_path
                 (run_dir "results/" "org/m" "p.json" "20250101_120000"))
     = correctness_summary_path
         (run_dir "results/" "org/m" "p.json" "20250101_120000").
Proof.
  split.
  - apply (proj1 checker_overwrites_runner_summary "results/run_1").
    + discriminate.
    + reflexivity.
  - apply (proj2 checker_overwrites_runner_summary
             "results/" "org/m" "p.json" "20250101_120000").
    reflexivity.
Defined.

(** ** Two more facts on verdicts *)

Section TokenFacts.
Import Str.

Lemma Substring_refl_prefix (w s : string) : Substring w (w ++ s).
Proof. exists ""%string, s. reflexivity. Qed.

Lemma Substring_later (w a s : string) : Substring w s -> Substring w (a ++ s).
Proof.
  intros [x [y H]]. exists (a ++ x)%string, y. rewrite append_assoc. now rewrite H.
Qed.

(** A word of a text occurs in the text. *)
Lemma split_from_Substring (s acc w : string) :
  In w (split_from acc s) -> Substring w (acc ++ s).
Proof.
  revert acc; induction s as [|c s IH]; intros acc; cbn [split_from].
  - destruct acc; cbn [flush In]; [intros [] | intros [<- | []]].
    apply Substring_refl_prefix.
  - destruct (isspace c).
    + intros H.
      assert (Hrest : In w (split_from "" s) -> Substring w (acc ++ String c s)).
      { intros Hin. apply Substring_later.
        change (String c s) with (String c "" ++ s)%string.
        apply Substring_later. exact (IH ""%string Hin). }
      destruct acc; cbn [flush In] in H; [exact (Hrest H)|].
      destruct H as [<- | H]; [apply Substring_refl_prefix | exact (Hrest H)].
    + intros H. apply IH in H. rewrite append_assoc in H. exact H.
Qed.

Lemma split_Substring (s w : string) : In w (split s) -> Substring w s.
Proof. exact (split_from_Substring s "" w). Qed.

End TokenFacts.

(** X14.  For a prompt of category general, an output longer than 5
    characters, lower-cased and trimmed, that has one of the first three
    words of the prompt among its own words is judged correct: sharing a
    word is enough for the verdict, though not needed for it. *)
Theorem shared_token_is_enough :
  forall json_loads p o,
    classify_spec p = "general" ->
    5 < String.length (out_lower o) ->
    SharesToken p o ->
    evaluate_row json_loads p o
    = Ret (mkResult "general" true (List.length (Str.split (out_lower o)))).
Proof.
  intros json_loads p o Hp Hlen [w [Hin Hout]].
  rewrite (eval_general json_loads p o Hp). do 2 f_equal.
  apply andb_true_iff. split; [now apply Nat.ltb_lt|].
  apply existsb_exists. exists w. split; [exact Hin|].
  apply contains_Substring. now apply split_Substring.
Qed.

Lemma shared_token_is_enough_witness :
  evaluate_row Json.loads "What is rust" "Rust is a language"
  = Ret (mkResult "general" true
           (List.length (Str.split (out_lower "Rust is a language")))).
Proof.
  apply (shared_token_is_enough Json.loads "What is rust" "Rust is a language").
  - reflexivity.
  - vm_compute. lia.
  - exists "is". split; vm_compute; auto.
Defined.

(** X15.  [looks_like_json] trims more kinds of white space than the JSON
    decoder skips: for a prompt of category json, an output whose first
    character, after the blanks, tabs and line ends the decoder skips, is
    white space of another kind is judged incorrect, whatever follows. *)
Theorem json_verdict_foreign_space :
  forall p o c rest,
    classify_spec p = "json" ->
    Json.skip_ws o = String c rest ->
    Str.isspace c = true ->
    Json.is_ws c = false ->
    exists r, evaluate_row Json.loads p o = Ret r /\ correct r = false.
Proof.
  intros p o c rest Hp Ho Hc Hw. rewrite (eval_json Json.loads p o Hp).
  eexists; split; [reflexivity|]. cbn [correct].
  destruct (looks_like_json o); [|reflexivity].
  unfold Json.loads, Json.decode. rewrite Ho.
  destruct (scan_once_space Json.default_constant (Json.fuel_for o) c rest Hc Hw)
    as [e ->].
  reflexivity.
Qed.

Lemma json_verdict_foreign_space_witness :
  exists r, evaluate_row Json.loads "json please"
              (" " ++ String (ascii_of_N 160) "[1, 2]") = Ret r
            /\ correct r = false.
Proof.
  apply (json_verdict_foreign_space "json please"
           (" " ++ String (ascii_of_N 160) "[1, 2]")
           (ascii_of_N 160) "[1, 2]"); reflexivity.
Defined.
